(** * Local food-waste dashboard: the data-access layer of [app.py]

    The program is a Streamlit page over an SQLite file.  Its data-access
    layer consists of

    - [create_database] (seeding through [DataFrame.to_sql]),
    - the two gateway functions [run_query] and [run_action],
    - three fixed reports ([q1], [q7], [q10]) and
    - the INSERT / SELECT / UPDATE / DELETE statements of the listing pages.

    The SQL statements are embedded by their meaning on tables (lists of
    rows, in rowid order); the Python functions are embedded in a state and
    exception monad over a world that holds the database file and the
    table of open connections. *)

From Stdlib Require Import ZArith QArith Qround Qabs String List Lia Lqa.
From stdpp Require Import base option list sorting gmap strings.

Local Open Scope Z_scope.
Local Open Scope list_scope.

(** ** SQL values

    A cell of an INTEGER column is NULL or an integer, a cell of a TEXT
    column is NULL or a string of bytes.  [None] is NULL. *)

Abbreviation sql_integer := (option Z).
Abbreviation sql_text := (option string).

(** [a = b] in a WHERE clause.  A comparison with NULL is unknown, and a
    row is selected only when the condition is true. *)
Definition sql_eq (a b : sql_integer) : bool :=
  match a, b with
  | Some x, Some y => Z.eqb x y
  | _, _ => false
  end.

(** ** Tables *)

(** A row of [food_listings]: the nine columns named by the statements of
    the listing pages. *)
Record FoodListing := mkFoodListing {
  Food_ID : sql_integer;
  Food_Name : sql_text;
  Quantity : sql_integer;
  Expiry_Date : sql_text;
  Provider_ID : sql_integer;
  Provider_Type : sql_text;
  Location : sql_text;
  Food_Type : sql_text;
  Meal_Type : sql_text
}.

(** The eight values bound by the Add Listing and Update Listing pages:
    [(Food_Name, Quantity, Expiry_Date.isoformat(), Provider_ID,
      Provider_Type, Location, Food_Type, Meal_Type)].  The text widgets
    yield [str], the number widgets [int]. *)
Record ListingValues := mkListingValues {
  v_Food_Name : string;
  v_Quantity : Z;
  v_Expiry_Date : string;
  v_Provider_ID : Z;
  v_Provider_Type : string;
  v_Location : string;
  v_Food_Type : string;
  v_Meal_Type : string
}.

(** A row holding identifier [id] and the eight values [v]. *)
Definition listing_row (id : sql_integer) (v : ListingValues) : FoodListing :=
  {| Food_ID := id;
     Food_Name := Some (v_Food_Name v);
     Quantity := Some (v_Quantity v);
     Expiry_Date := Some (v_Expiry_Date v);
     Provider_ID := Some (v_Provider_ID v);
     Provider_Type := Some (v_Provider_Type v);
     Location := Some (v_Location v);
     Food_Type := Some (v_Food_Type v);
     Meal_Type := Some (v_Meal_Type v) |}.

(** Modelled from the spec: the CSV files that give [providers],
    [receivers] and [claims] their columns are not part of the sources.
    The columns are those of the data model (Provider: Provider_ID, Name,
    Type, City, Contact; Receiver likewise; Claim: Claim_ID, Food_ID,
    Receiver_ID, Status, Timestamp).  The code reads [City] and [Status]
    only. *)
Module Providers.
Record row := mk {
  Provider_ID : sql_integer;
  Name : sql_text;
  Type_ : sql_text;
  City : sql_text;
  Contact : sql_text
}.
End Providers.

Module Receivers.
Record row := mk {
  Receiver_ID : sql_integer;
  Name : sql_text;
  Type_ : sql_text;
  City : sql_text;
  Contact : sql_text
}.
End Receivers.

Module Claims.
Record row := mk {
  Claim_ID : sql_integer;
  Food_ID : sql_integer;
  Receiver_ID : sql_integer;
  Status : sql_text;
  Timestamp : sql_text
}.
End Claims.

(** The database file: the four tables written by [create_database].

    [to_sql(name, conn, if_exists="replace", index=False)] creates each
    table with one plain column per DataFrame column: no PRIMARY KEY, no
    UNIQUE and no NOT NULL constraint, no default value.  A table is
    therefore a list of rows in which any row may repeat. *)
Record database := mkDatabase {
  providers : list Providers.row;
  receivers : list Receivers.row;
  food_listings : list FoodListing;
  claims : list Claims.row
}.

Definition with_food_listings (db : database) (t : list FoodListing) : database :=
  {| providers := providers db;
     receivers := receivers db;
     food_listings := t;
     claims := claims db |}.

(** [create_database]: the four DataFrames read from the CSV files replace
    the tables of the same names. *)
Definition create_database (providers_df : list Providers.row)
    (receivers_df : list Receivers.row) (food_df : list FoodListing)
    (claims_df : list Claims.row) : database :=
  {| providers := providers_df;
     receivers := receivers_df;
     food_listings := food_df;
     claims := claims_df |}.

(** ** The statements of the listing pages, on the table *)

(** [INSERT INTO food_listings (Food_Name, ..., Meal_Type) VALUES (?, ..., ?)].
    The column list leaves [Food_ID] out; the column has no default and is
    no alias of the rowid, so the new row holds NULL there. *)
Definition INSERT_listing (v : ListingValues) (t : list FoodListing) : list FoodListing :=
  t ++ [listing_row None v].

(** [SELECT * FROM food_listings WHERE Food_ID = ?] *)
Definition SELECT_listing (id : sql_integer) (t : list FoodListing) : list FoodListing :=
  List.filter (fun r => sql_eq (Food_ID r) id) t.

(** [UPDATE food_listings SET Food_Name=?, ..., Meal_Type=? WHERE Food_ID=?] *)
Definition UPDATE_listing (v : ListingValues) (id : sql_integer)
    (t : list FoodListing) : list FoodListing :=
  List.map (fun r => if sql_eq (Food_ID r) id then listing_row (Food_ID r) v else r) t.

(** [DELETE FROM food_listings WHERE Food_ID=?] *)
Definition DELETE_listing (id : sql_integer) (t : list FoodListing) : list FoodListing :=
  List.filter (fun r => negb (sql_eq (Food_ID r) id)) t.

(** ** The gateway: connections, exceptions, [run_query], [run_action] *)

Inductive exception :=
  | OperationalError
  | IntegrityError
  | ProgrammingError
  | DatabaseError.

Inductive outcome (A : Type) :=
  | Return (a : A)
  | Raise (e : exception).
Arguments Return {A} a.
Arguments Raise {A} e.

(** The world of the process: the committed contents of the database file,
    the connections that are open (each with the uncommitted state of its
    transaction, if it has one), and the next connection handle. *)
Record world := mkWorld {
  store : database;
  conns : gmap nat (option database);
  next_handle : nat
}.

Definition M (A : Type) : Type := world -> outcome A * world.

#[export] Instance M_ret : MRet M := fun A a w => (Return a, w).
#[export] Instance M_bind : MBind M := fun A B f m w =>
  match m w with
  | (Return a, w') => f a w'
  | (Raise e, w') => (Raise e, w')
  end.

(** A statement together with its bound parameters, by its meaning: a read
    yields rows, a write yields the new contents; either may raise. *)
Definition read_statement (A : Type) : Type := database -> outcome (list A).
Definition write_statement : Type := database -> outcome database.

(** [sqlite3.connect(DB_PATH, check_same_thread=False)] *)
Definition get_connection : M nat := fun w =>
  let conn := next_handle w in
  (Return conn,
   {| store := store w;
      conns := <[conn := None]> (conns w);
      next_handle := S conn |}).

(** What a connection sees: its own uncommitted state, or the file. *)
Definition view (w : world) (pending : option database) : database :=
  default (store w) pending.

(** [pd.read_sql_query(query, conn, params=params)]: all rows of the
    result set, as a DataFrame; pandas re-raises an error of the store as
    its own [DatabaseError]. *)
Definition read_sql_query {A} (query : read_statement A) (conn : nat) : M (list A) := fun w =>
  match conns w !! conn with
  | None => (Raise DatabaseError, w)
  | Some pending =>
      match query (view w pending) with
      | Return rows => (Return rows, w)
      | Raise e => (Raise DatabaseError, w)
      end
  end.

(** [conn.execute(query, params)] *)
Definition execute (conn : nat) (query : write_statement) : M unit := fun w =>
  match conns w !! conn with
  | None => (Raise ProgrammingError, w)
  | Some pending =>
      match query (view w pending) with
      | Return db' =>
          (Return tt,
           {| store := store w;
              conns := <[conn := Some db']> (conns w);
              next_handle := next_handle w |})
      | Raise e => (Raise e, w)
      end
  end.

(** [conn.commit()] *)
Definition commit (conn : nat) : M unit := fun w =>
  match conns w !! conn with
  | None => (Raise ProgrammingError, w)
  | Some None => (Return tt, w)
  | Some (Some db') =>
      (Return tt,
       {| store := db';
          conns := <[conn := None]> (conns w);
          next_handle := next_handle w |})
  end.

(** [conn.close()]: an uncommitted transaction is dropped. *)
Definition close (conn : nat) : M unit := fun w =>
  (Return tt,
   {| store := store w;
      conns := delete conn (conns w);
      next_handle := next_handle w |}).

Definition run_query {A} (query : read_statement A) : M (list A) :=
  conn ← get_connection;
  df ← read_sql_query query conn;
  close conn;;
  mret df.

Definition run_action (query : write_statement) : M unit :=
  conn ← get_connection;
  execute conn query;;
  commit conn;;
  close conn.

(** Whether connection [conn] is open in [w]. *)
Definition is_open (conn : nat) (w : world) : bool :=
  bool_decide (is_Some (conns w !! conn)).

(** ** The listing pages *)

Definition on_food_listings (f : list FoodListing -> list FoodListing) : write_statement :=
  fun db => Return (with_food_listings db (f (food_listings db))).

(** The Add Listing button. *)
Definition Add_Listing (v : ListingValues) : M unit :=
  run_action (on_food_listings (INSERT_listing v)).

(** [current_data = run_query("SELECT * ... WHERE Food_ID = ?", (selected_id,))] *)
Definition read_for_edit (selected_id : sql_integer) : M (list FoodListing) :=
  run_query (fun db => Return (SELECT_listing selected_id (food_listings db))).

(** The Update Listing button. *)
Definition Update_Listing (v : ListingValues) (selected_id : sql_integer) : M unit :=
  run_action (on_food_listings (UPDATE_listing v selected_id)).

(** The Delete Listing button. *)
Definition Delete_Listing (selected_id : sql_integer) : M unit :=
  run_action (on_food_listings (DELETE_listing selected_id)).

(** ** Grouping, ordering and aggregates *)

(** The order of TEXT cells under the BINARY collation: NULL first, then
    the strings by their bytes. *)
Definition text_leb (a b : sql_text) : bool :=
  match a, b with
  | None, _ => true
  | Some _, None => false
  | Some x, Some y => String.leb x y
  end.

Definition text_le : relation sql_text := fun a b => Is_true (text_leb a b).

(** [GROUP BY key]: one group per distinct key, NULL being a key of its
    own; SQLite emits the groups in the order of the key. *)
Definition group_keys {R} (key : R -> sql_text) (rows : list R) : list sql_text :=
  merge_sort text_le (remove_dups (key <$> rows)).

Definition GROUP_BY {R} (key : R -> sql_text) (rows : list R) : list (sql_text * list R) :=
  (fun k => (k, filter (fun r => key r = k) rows)) <$> group_keys key rows.

(** [COUNT( * )] of a group or of a table. *)
Definition COUNT {R} (rows : list R) : Z := Z.of_nat (length rows).

(** [SUM(col)] of a group, for an integer column without NULL. *)
Definition SUM {R} (col : R -> Z) (rows : list R) : Z :=
  fold_right (fun r acc => col r + acc) 0 rows.

(** [ORDER BY key] ascending for a TEXT key and [ORDER BY key DESC] for an
    integer key.  Among rows of equal key SQL fixes no order: the sort
    used here keeps the order of its input, which need not be the order
    in which SQLite returns them. *)
Definition ascending {R} (key : R -> sql_text) : relation R :=
  fun a b => text_le (key a) (key b).

Definition descending {R} (key : R -> Z) : relation R :=
  fun a b => key b <= key a.

#[export] Instance ascending_dec {R} (key : R -> sql_text) : RelDecision (ascending key).
Proof. intros a b. unfold ascending, text_le. apply _. Defined.

#[export] Instance descending_dec {R} (key : R -> Z) : RelDecision (descending key).
Proof. intros a b. unfold descending. apply _. Defined.

Definition ORDER_BY {R} (key : R -> sql_text) (rows : list R) : list R :=
  merge_sort (ascending key) rows.

Definition ORDER_BY_DESC {R} (key : R -> Z) (rows : list R) : list R :=
  merge_sort (descending key) rows.

(** [ROUND(x, digits)] on a REAL.  REAL values are embedded as exact
    rationals (the operands of [q10] are row counts, which binary64 holds
    exactly, and their quotient is resolved far below a hundredth); the
    nearest multiple of [10^-digits] is taken, a tie going away from
    zero. *)
Definition ROUND (x : Q) (digits : nat) : Q :=
  let scale := inject_Z (10 ^ Z.of_nat digits) in
  if Qle_bool 0 x
  then (inject_Z (Qfloor (x * scale + (1 # 2))) / scale)%Q
  else (- (inject_Z (Qfloor (- x * scale + (1 # 2))) / scale))%Q.

(** ** The report catalogue *)

Module Q1.
(** A row of the inner UNION ALL. *)
Record part := mk_part {
  part_City : sql_text;
  providers_count : Z;
  receivers_count : Z
}.
Record row := mk {
  City : sql_text;
  Providers : Z;
  Receivers : Z
}.
End Q1.

Module Q7.
Record row := mk {
  Food_Type : sql_text;
  Count_Listings : Z
}.
End Q7.

Module Q10.
Record row := mk {
  Status : sql_text;
  Count_Status : Z;
  Percentage : Q
}.
End Q10.

(** Providers & Receivers per City. *)
Definition q1 (db : database) : list Q1.row :=
  ORDER_BY Q1.City
    ((fun g => Q1.mk (fst g) (SUM Q1.providers_count (snd g))
                     (SUM Q1.receivers_count (snd g)))
       <$> GROUP_BY Q1.part_City
             (((fun g => Q1.mk_part (fst g) (COUNT (snd g)) 0)
                 <$> GROUP_BY Providers.City (providers db))
              ++
              ((fun g => Q1.mk_part (fst g) 0 (COUNT (snd g)))
                 <$> GROUP_BY Receivers.City (receivers db)))).

(** Most Common Food Types. *)
Definition q7 (db : database) : list Q7.row :=
  ORDER_BY_DESC Q7.Count_Listings
    ((fun g => Q7.mk (fst g) (COUNT (snd g)))
       <$> GROUP_BY Food_Type (food_listings db)).

(** Claims Status Distribution. *)
Definition q10 (db : database) : list Q10.row :=
  (fun g =>
     Q10.mk (fst g) (COUNT (snd g))
       (ROUND (100 * inject_Z (COUNT (snd g)) / inject_Z (COUNT (claims db))) 2))
    <$> GROUP_BY Claims.Status (claims db).

(** The number of rows of a table whose TEXT column [key] holds [k]
    (NULL counted as a value of its own, as GROUP BY does). *)
Definition rows_with {R} (key : R -> sql_text) (k : sql_text) (rows : list R) : Z :=
  COUNT (filter (fun r => key r = k) rows).

(** The sum of a column of rationals. *)
Definition Qsum {R} (col : R -> Q) (rows : list R) : Q :=
  fold_right (fun r acc => (col r + acc)%Q) 0%Q rows.

(** ** Sample data: the listing of the worked example *)

Definition rice : ListingValues :=
  {| v_Food_Name := "Rice";
     v_Quantity := 10;
     v_Expiry_Date := "2025-01-01";
     v_Provider_ID := 1;
     v_Provider_Type := "Restaurant";
     v_Location := "X";
     v_Food_Type := "Grain";
     v_Meal_Type := "Lunch" |}.

Definition bread : FoodListing :=
  {| Food_ID := Some 1;
     Food_Name := Some "Bread";
     Quantity := Some 43;
     Expiry_Date := Some "2025-03-17";
     Provider_ID := Some 110;
     Provider_Type := Some "Grocery Store";
     Location := Some "South Kellyville";
     Food_Type := Some "Non-Vegetarian";
     Meal_Type := Some "Breakfast" |}.

Definition seeded : world :=
  {| store := create_database [] [] [bread] [];
     conns := ∅;
     next_handle := 0 |}.

Definition claim (status : string) : Claims.row :=
  {| Claims.Claim_ID := None;
     Claims.Food_ID := None;
     Claims.Receiver_ID := None;
     Claims.Status := Some status;
     Claims.Timestamp := None |}.

Definition provider (city : string) : Providers.row :=
  {| Providers.Provider_ID := None;
     Providers.Name := None;
     Providers.Type_ := None;
     Providers.City := Some city;
     Providers.Contact := None |}.

Definition receiver (city : string) : Receivers.row :=
  {| Receivers.Receiver_ID := None;
     Receivers.Name := None;
     Receivers.Type_ := None;
     Receivers.City := Some city;
     Receivers.Contact := None |}.

Definition claimed : database :=
  create_database
    [provider "Pune"; provider "Agra"; provider "Pune"]
    [receiver "Delhi"; receiver "Agra"]
    [bread; listing_row (Some 2) rice; listing_row (Some 3) rice]
    [claim "Pending"; claim "Completed"; claim "Pending"; claim "Cancelled";
     claim "Pending"; claim "Completed"; claim "Pending"].

Definition dal : ListingValues :=
  {| v_Food_Name := "Dal";
     v_Quantity := 5;
     v_Expiry_Date := "2025-02-01";
     v_Provider_ID := 2;
     v_Provider_Type := "Catering Service";
     v_Location := "Y";
     v_Food_Type := "Pulse";
     v_Meal_Type := "Dinner" |}.

(** A process over the sample database, with no connection open. *)
Definition stocked : world :=
  {| store := claimed;
     conns := ∅;
     next_handle := 0 |}.

(** A statement that the store rejects, such as a misspelt keyword. *)
Definition malformed_read : read_statement FoodListing := fun _ => Raise OperationalError.
Definition malformed_write : write_statement := fun _ => Raise OperationalError.

(** The rows of the inner UNION ALL of [q1], and the cities the outer
    GROUP BY finds in them. *)
Definition q1_parts (db : database) : list Q1.part :=
  ((fun g => Q1.mk_part (fst g) (COUNT (snd g)) 0)
     <$> GROUP_BY Providers.City (providers db))
  ++
  ((fun g => Q1.mk_part (fst g) 0 (COUNT (snd g)))
     <$> GROUP_BY Receivers.City (receivers db)).

Definition q1_cities (db : database) : list sql_text :=
  group_keys Q1.part_City (q1_parts db).

(** ** The selection widgets of the Update and Delete pages *)

(** [SELECT Food_ID, Food_Name FROM food_listings] *)
Definition SELECT_ids_names (t : list FoodListing) : list (sql_integer * sql_text) :=
  (fun r => (Food_ID r, Food_Name r)) <$> t.

(** What [df_listings["Food_ID"].tolist()] holds.  pandas reads an INTEGER
    column without NULL as integers, a column with integers and NULL as
    floats with NaN for NULL, and a column of NULL only as [None]s.  A
    float stands for its integer here; the rounding of an identifier
    beyond 2^53 by the conversion is not followed. *)
Inductive pyvalue :=
  | PyNone
  | PyNaN
  | PyNumber (z : Z).

Definition tolist (column : list sql_integer) : list pyvalue :=
  if decide (Forall (fun c => c = None) column)
  then (fun _ => PyNone) <$> column
  else (fun c => match c with Some z => PyNumber z | None => PyNaN end) <$> column.

(** [if selected_id:] *)
Definition truthy (x : pyvalue) : bool :=
  match x with
  | PyNone => false
  | PyNaN => true
  | PyNumber z => negb (Z.eqb z 0)
  end.

(** The value bound to a [?]: [None] and NaN are both stored as NULL. *)
Definition bind_param (x : pyvalue) : sql_integer :=
  match x with
  | PyNumber z => Some z
  | _ => None
  end.

(** [st.selectbox(label, options)]: the option the user picked, by its
    position; [None] when there is no option to pick. *)
Definition selectbox (options : list pyvalue) (choice : nat) : pyvalue :=
  default PyNone (options !! choice).

(** An exception raised outside the gateway, such as a widget that rejects
    the value it is given. *)
Definition lift {A} (o : outcome A) : M A := fun w => (o, w).

(** One run of the Update Listing page.  [form row] stands for the eight
    widgets pre-filled from [row] and then read: the values the user left
    in them, or the exception of a widget. [pressed] is the button. *)
Definition Update_Listing_page (choice : nat)
    (form : FoodListing -> outcome ListingValues) (pressed : bool) : M unit :=
  df_listings ← run_query (fun db => Return (SELECT_ids_names (food_listings db)));
  let listing_ids := tolist (fst <$> df_listings) in
  let selected_id := selectbox listing_ids choice in
  if truthy selected_id then
    current_data ← read_for_edit (bind_param selected_id);
    match current_data with
    | [] => mret tt
    | row :: _ =>
        v ← lift (form row);
        if pressed then Update_Listing v (bind_param selected_id) else mret tt
    end
  else mret tt.

(** One run of the Delete Listing page. *)
Definition Delete_Listing_page (choice : nat) (pressed : bool) : M unit :=
  df_listings ← run_query (fun db => Return (SELECT_ids_names (food_listings db)));
  let listing_ids := tolist (fst <$> df_listings) in
  let selected_id := selectbox listing_ids choice in
  if pressed then Delete_Listing (bind_param selected_id) else mret tt.

(** ** The gateway when the store refuses a commit

    [conn.commit()] raises when the store cannot make the transaction
    durable (the database is locked by another process, the disk is
    full); the transaction then stays open.  [refused] is the exception
    of the store, if it refuses. *)
Definition commit_in (refused : option exception) (conn : nat) : M unit :=
  match refused with
  | Some e => fun w =>
      match conns w !! conn with
      | None => (Raise ProgrammingError, w)
      | Some _ => (Raise e, w)
      end
  | None => commit conn
  end.

(** [run_action] in a process whose commit the store may refuse. *)
Definition run_action_in (refused : option exception) (query : write_statement) : M unit :=
  conn ← get_connection;
  execute conn query;;
  commit_in refused conn;;
  close conn.

(** Every open connection was handed out by an earlier [get_connection]. *)
Definition handles_fresh (w : world) : Prop :=
  ∀ conn, is_Some (conns w !! conn) → (conn < next_handle w)%nat.

(** ** The start of the process *)

(** The tables that [create_database] writes, in the order of its four
    [to_sql] calls. *)
Inductive table_name :=
  | providers_table
  | receivers_table
  | food_listings_table
  | claims_table.

#[export] Instance table_name_eq_dec : EqDecision table_name.
Proof. solve_decision. Defined.

(** A table of the file: not there, there with its rows, or what a
    [to_sql] call that raised has left of it. *)
Inductive table_state (A : Type) :=
  | Missing
  | Broken
  | Rows (rows : list A).
Arguments Missing {A}.
Arguments Broken {A}.
Arguments Rows {A} rows.

Record db_tables := mkTables {
  providers_state : table_state Providers.row;
  receivers_state : table_state Receivers.row;
  food_listings_state : table_state FoodListing;
  claims_state : table_state Claims.row
}.

(** The file [food_waste.db]: missing, or a database with its tables. *)
Inductive db_file :=
  | Absent
  | File (tables : db_tables).

(** A database without tables, and a database with the four tables. *)
Definition NoTables : db_file := File (mkTables Missing Missing Missing Missing).

Definition Tables (db : database) : db_file :=
  File (mkTables (Rows (providers db)) (Rows (receivers db))
          (Rows (food_listings db)) (Rows (claims db))).

(** The four CSV files, each readable or not. *)
Record csv_files := mkCsvFiles {
  providers_data : option (list Providers.row);
  receivers_data : option (list Receivers.row);
  food_listings_data : option (list FoodListing);
  claims_data : option (list Claims.row)
}.

Inductive seeding :=
  | Seeded
  | ReadFailed
  | WriteFailed.

(** [df.to_sql(name, conn, if_exists="replace", index=False)]: the rows of
    the DataFrame replace the table, unless the call raises. *)
Definition to_sql {A} (raises : bool) (df : list A) : table_state A :=
  if raises then Broken else Rows df.

(** [create_database()] on the file system: [sqlite3.connect] creates the
    file when it is missing; the four [read_csv] calls come next, and the
    first that fails ends the function; only then do the four [to_sql]
    calls replace the tables, one after the other, and the first that
    raises ends the function.  [refused] names the [to_sql] call that
    raises, if one does (an integer that the store cannot hold, a full
    disk). *)
Definition create_database_at (refused : option table_name) (csv : csv_files)
    (file : db_file) : seeding * db_file :=
  let connected :=
    match file with
    | Absent => mkTables Missing Missing Missing Missing
    | File tables => tables
    end in
  match providers_data csv, receivers_data csv,
        food_listings_data csv, claims_data csv with
  | Some providers_df, Some receivers_df, Some food_df, Some claims_df =>
      let raises name := bool_decide (refused = Some name) in
      let t1 := mkTables (to_sql (raises providers_table) providers_df)
                  (receivers_state connected) (food_listings_state connected)
                  (claims_state connected) in
      if raises providers_table then (WriteFailed, File t1) else
      let t2 := mkTables (providers_state t1)
                  (to_sql (raises receivers_table) receivers_df)
                  (food_listings_state t1) (claims_state t1) in
      if raises receivers_table then (WriteFailed, File t2) else
      let t3 := mkTables (providers_state t2) (receivers_state t2)
                  (to_sql (raises food_listings_table) food_df)
                  (claims_state t2) in
      if raises food_listings_table then (WriteFailed, File t3) else
      let t4 := mkTables (providers_state t3) (receivers_state t3)
                  (food_listings_state t3)
                  (to_sql (raises claims_table) claims_df) in
      if raises claims_table then (WriteFailed, File t4) else
      (Seeded, File t4)
  | _, _, _, _ => (ReadFailed, File connected)
  end.

(** [if not os.path.exists(DB_PATH): create_database()] *)
Definition startup (refused : option table_name) (csv : csv_files)
    (file : db_file) : option seeding * db_file :=
  match file with
  | Absent =>
      let '(r, file') := create_database_at refused csv file in (Some r, file')
  | File _ => (None, file)
  end.

(** * Properties *)

(** ** The gateway *)

Section gateway.
Implicit Types (w : world) (conn : nat).

Lemma close_after_open w pending :
  delete (next_handle w) (<[next_handle w := pending]> (conns w))
  = delete (next_handle w) (conns w).
Proof. apply delete_insert_eq. Qed.

(** A read that returns rows: the rows are handed back, the store is
    untouched, and the connection of the call is gone. *)
Lemma run_query_Return {A} (query : read_statement A) w rows :
  query (store w) = Return rows →
  run_query query w
  = (Return rows,
     {| store := store w;
        conns := delete (next_handle w) (conns w);
        next_handle := S (next_handle w) |}).
Proof.
  intros Hq. unfold run_query, mbind, M_bind, get_connection, read_sql_query.
  cbn. rewrite lookup_insert_eq. cbn. rewrite Hq. cbn.
  unfold mret, M_ret, close. cbn. by rewrite close_after_open.
Qed.

(** A read that raises: the exception leaves [run_query] at the line of
    [read_sql_query]; the line [conn.close()] is not reached. *)
Lemma run_query_Raise {A} (query : read_statement A) w e :
  query (store w) = Raise e →
  run_query query w
  = (Raise DatabaseError,
     {| store := store w;
        conns := <[next_handle w := None]> (conns w);
        next_handle := S (next_handle w) |}).
Proof.
  intros Hq. unfold run_query, mbind, M_bind, get_connection, read_sql_query.
  cbn. rewrite lookup_insert_eq. cbn. by rewrite Hq.
Qed.

(** A write that succeeds is committed, and the connection is gone. *)
Lemma run_action_Return (query : write_statement) w db' :
  query (store w) = Return db' →
  run_action query w
  = (Return tt,
     {| store := db';
        conns := delete (next_handle w) (conns w);
        next_handle := S (next_handle w) |}).
Proof.
  intros Hq. unfold run_action, mbind, M_bind, get_connection, execute.
  cbn. rewrite lookup_insert_eq. cbn. rewrite Hq. cbn.
  unfold commit. cbn. rewrite lookup_insert_eq. cbn.
  unfold close. cbn. by rewrite !insert_insert_eq, close_after_open.
Qed.

(** A write that raises: neither [commit] nor [close] is reached. *)
Lemma run_action_Raise (query : write_statement) w e :
  query (store w) = Raise e →
  run_action query w
  = (Raise e,
     {| store := store w;
        conns := <[next_handle w := None]> (conns w);
        next_handle := S (next_handle w) |}).
Proof.
  intros Hq. unfold run_action, mbind, M_bind, get_connection, execute.
  cbn. rewrite lookup_insert_eq. cbn. by rewrite Hq.
Qed.

End gateway.

(** ** The statements of the listing pages *)

Section statements.
Implicit Types (t : list FoodListing) (id : sql_integer) (v : ListingValues).

Lemma sql_eq_true a b : sql_eq a b = true → a = b ∧ is_Some a.
Proof.
  destruct a as [x|], b as [y|]; cbn; try discriminate.
  intros ->%Z.eqb_eq. eauto.
Qed.

Lemma sql_eq_NULL_r a : sql_eq a None = false.
Proof. by destruct a. Qed.

(** A row added by INSERT is found under no identifier at all. *)
Lemma SELECT_after_INSERT id v t :
  SELECT_listing id (INSERT_listing v t) = SELECT_listing id t.
Proof.
  unfold SELECT_listing, INSERT_listing.
  rewrite List.filter_app. cbn. apply app_nil_r.
Qed.

Lemma SELECT_after_DELETE id t : SELECT_listing id (DELETE_listing id t) = [].
Proof.
  unfold SELECT_listing, DELETE_listing.
  induction t as [|r t IH]; [done|]. cbn.
  destruct (sql_eq (Food_ID r) id) eqn:E; cbn; [done|]. by rewrite E.
Qed.

Lemma DELETE_absent id t : SELECT_listing id t = [] → DELETE_listing id t = t.
Proof.
  unfold SELECT_listing, DELETE_listing.
  induction t as [|r t IH]; [done|]. cbn.
  destruct (sql_eq (Food_ID r) id); cbn; [discriminate|].
  intros H. by rewrite IH.
Qed.

Lemma DELETE_twice id t :
  DELETE_listing id (DELETE_listing id t) = DELETE_listing id t.
Proof. apply DELETE_absent, SELECT_after_DELETE. Qed.

Lemma UPDATE_twice v id t :
  UPDATE_listing v id (UPDATE_listing v id t) = UPDATE_listing v id t.
Proof.
  unfold UPDATE_listing. rewrite List.map_map. apply List.map_ext.
  intros r. destruct (sql_eq (Food_ID r) id) eqn:E; cbn; by rewrite E.
Qed.

Lemma UPDATE_rows v id t :
  Forall2
    (fun old new =>
       if sql_eq (Food_ID old) id
       then new = listing_row id v ∧ Food_ID new = Food_ID old
       else new = old)
    t (UPDATE_listing v id t).
Proof.
  induction t as [|r t IH]; cbn; constructor; [|done].
  destruct (sql_eq (Food_ID r) id) eqn:E; [|done].
  apply sql_eq_true in E as [-> _]. done.
Qed.

Lemma with_food_listings_same db : with_food_listings db (food_listings db) = db.
Proof. by destruct db. Qed.

(** A statement on [food_listings] does not raise; [run_action] commits
    its effect. *)
Lemma run_action_on_food_listings f w :
  run_action (on_food_listings f) w
  = (Return tt,
     {| store := with_food_listings (store w) (f (food_listings (store w)));
        conns := delete (next_handle w) (conns w);
        next_handle := S (next_handle w) |}).
Proof. by apply run_action_Return. Qed.

Lemma Add_Listing_store v w :
  fst (Add_Listing v w) = Return tt ∧
  food_listings (store (snd (Add_Listing v w)))
  = food_listings (store w) ++ [listing_row None v].
Proof. unfold Add_Listing. by rewrite run_action_on_food_listings. Qed.

Lemma read_for_edit_result id w :
  fst (read_for_edit id w) = Return (SELECT_listing id (food_listings (store w))).
Proof. unfold read_for_edit. by erewrite run_query_Return. Qed.

(** For every identifier, read-for-edit finds after an insert what it
    found before: the inserted row cannot be fetched. *)
Lemma read_for_edit_after_Add_Listing id v w :
  fst (read_for_edit id (snd (Add_Listing v w))) = fst (read_for_edit id w).
Proof.
  rewrite !read_for_edit_result.
  destruct (Add_Listing_store v w) as [_ ->].
  f_equal. apply SELECT_after_INSERT.
Qed.
End statements.

(** C1 (the code departs from the claim): the Add Listing page binds the
    eight attributes and no Food_ID, but the store assigns none either.
    Adding the listing of the worked example twice to a seeded table
    leaves two rows whose Food_ID is NULL, equal in every column. *)
Example Add_Listing_assigns_no_Food_ID :
  let w1 := snd (Add_Listing rice seeded) in
  let w2 := snd (Add_Listing rice w1) in
  fst (Add_Listing rice seeded) = Return tt ∧
  fst (Add_Listing rice w1) = Return tt ∧
  food_listings (store w1) = [bread; listing_row None rice] ∧
  food_listings (store w2) = [bread; listing_row None rice; listing_row None rice] ∧
  Food_ID (listing_row None rice) = None.
Proof.
  cbn zeta.
  destruct (Add_Listing_store rice seeded) as [R1 S1].
  destruct (Add_Listing_store rice (snd (Add_Listing rice seeded))) as [R2 S2].
  rewrite S1 in S2. repeat split; done.
Qed.

(** C2 (the code departs from the claim): after the listing of the worked
    example is added to a seeded table, the new row is the last one and
    holds NULL as its Food_ID; read-for-edit with that identifier returns
    no row, and read-for-edit with the identifier of the seeded row
    returns the seeded row alone.  By [read_for_edit_after_Add_Listing]
    no identifier at all fetches the new row. *)
Example read_for_edit_misses_inserted_listing :
  let w1 := snd (Add_Listing rice seeded) in
  List.last (food_listings (store w1)) bread = listing_row None rice ∧
  fst (read_for_edit (Food_ID (listing_row None rice)) w1) = Return [] ∧
  fst (read_for_edit (Some 1) w1) = Return [bread].
Proof.
  cbn zeta. rewrite !read_for_edit_after_Add_Listing, !read_for_edit_result.
  destruct (Add_Listing_store rice seeded) as [_ ->]. done.
Qed.

(** C5: deleting by an identifier always returns normally; a second delete
    by the same identifier leaves the store as the first left it;
    read-for-edit after the delete returns no row; and when no row holds
    the identifier the first delete leaves the store as it was. *)
Theorem Delete_Listing_absent_is_noop (w : world) (id : sql_integer) :
  let w1 := snd (Delete_Listing id w) in
  let w2 := snd (Delete_Listing id w1) in
  fst (Delete_Listing id w) = Return tt ∧
  fst (Delete_Listing id w1) = Return tt ∧
  store w2 = store w1 ∧
  fst (read_for_edit id w1) = Return [] ∧
  (SELECT_listing id (food_listings (store w)) = [] → store w1 = store w).
Proof.
  cbn zeta. unfold Delete_Listing.
  rewrite read_for_edit_result, !run_action_on_food_listings. cbn.
  split; [done|]. split; [done|]. split; [|split].
  - unfold with_food_listings. cbn. f_equal. apply DELETE_twice.
  - f_equal. apply SELECT_after_DELETE.
  - intros H. unfold with_food_listings. cbn.
    change (List.filter _ (food_listings (store w)))
      with (DELETE_listing id (food_listings (store w))).
    rewrite (DELETE_absent _ _ H). by destruct (store w).
Qed.

Lemma Delete_Listing_absent_is_noop_witness :
  SELECT_listing (Some 7) (food_listings (store seeded)) = [] ∧
  store (snd (Delete_Listing (Some 7) seeded)) = store seeded.
Proof.
  split; [reflexivity|].
  apply (Delete_Listing_absent_is_noop seeded (Some 7)). reflexivity.
Defined.

(** C6: pressing Update Listing twice with the same values and the same
    target leaves the store as pressing it once does. *)
Theorem Update_Listing_idempotent (w : world) (v : ListingValues) (id : sql_integer) :
  store (snd (Update_Listing v id (snd (Update_Listing v id w))))
  = store (snd (Update_Listing v id w)).
Proof.
  unfold Update_Listing. rewrite !run_action_on_food_listings. cbn.
  unfold with_food_listings. cbn. f_equal. apply UPDATE_twice.
Qed.

(** C7: an update targeting [id] returns normally; row by row, a row whose
    Food_ID equals [id] becomes the row of [id] and the eight supplied
    values (its Food_ID is the one it had), every other row is the row it
    was; the other three tables are untouched. *)
Theorem Update_Listing_full_replace (w : world) (v : ListingValues) (id : sql_integer) :
  let w' := snd (Update_Listing v id w) in
  fst (Update_Listing v id w) = Return tt ∧
  Forall2
    (fun old new =>
       if sql_eq (Food_ID old) id
       then new = listing_row id v ∧ Food_ID new = Food_ID old
       else new = old)
    (food_listings (store w)) (food_listings (store w')) ∧
  providers (store w') = providers (store w) ∧
  receivers (store w') = receivers (store w) ∧
  claims (store w') = claims (store w).
Proof.
  cbn zeta. unfold Update_Listing. rewrite run_action_on_food_listings. cbn.
  repeat split. apply UPDATE_rows.
Qed.

(** C3 (the code departs from the claim): [run_query] and [run_action]
    reach [conn.close()] on the normal path only.  A statement that
    raises leaves the connection of the call open when the call hands the
    exception to its caller, in [run_query] and in [run_action] alike. *)
Lemma connection_left_open_on_raise :
  is_open (next_handle seeded) (snd (run_query malformed_read seeded)) = true ∧
  is_open (next_handle seeded) (snd (run_action malformed_write seeded)) = true.
Proof. split; reflexivity. Qed.

(** C10: a read whose result set has no rows makes [run_query] return the
    empty table; no exception is raised. *)
Theorem run_query_zero_rows {A} (query : read_statement A) (w : world) :
  query (store w) = Return [] → fst (run_query query w) = Return [].
Proof. intros Hq. by rewrite (run_query_Return _ _ _ Hq). Qed.

Lemma run_query_zero_rows_witness :
  fst (run_query (fun db => Return (SELECT_listing (Some 7) (food_listings db))) seeded)
  = Return [].
Proof.
  apply (run_query_zero_rows
           (fun db => Return (SELECT_listing (Some 7) (food_listings db))) seeded).
  reflexivity.
Defined.

(** ** Ordering of TEXT cells *)

Lemma ascii_compare_refl a : Ascii.compare a a = Eq.
Proof. unfold Ascii.compare. apply N.compare_refl. Qed.

Lemma string_compare_trans s1 s2 s3 :
  String.compare s1 s2 ≠ Gt → String.compare s2 s3 ≠ Gt → String.compare s1 s3 ≠ Gt.
Proof.
  revert s2 s3. induction s1 as [|a s1 IH]; intros [|b s2] [|c s3]; cbn; try done.
  destruct (Ascii.compare a b) eqn:Eab; [| |done];
    destruct (Ascii.compare b c) eqn:Ebc; try done.
  - apply Ascii.compare_eq_iff in Eab as ->. rewrite Ebc. apply IH.
  - apply Ascii.compare_eq_iff in Eab as ->. by rewrite Ebc.
  - apply Ascii.compare_eq_iff in Ebc as <-. by rewrite Eab.
  - unfold Ascii.compare in *.
    rewrite N.compare_lt_iff in Eab, Ebc.
    assert (Ascii.N_of_ascii a < Ascii.N_of_ascii c)%N as Hac by lia.
    apply N.compare_lt_iff in Hac. by rewrite Hac.
Qed.

Lemma string_leb_spec s1 s2 : String.leb s1 s2 = true ↔ String.compare s1 s2 ≠ Gt.
Proof. unfold String.leb. destruct (String.compare s1 s2); naive_solver. Qed.

#[export] Instance text_le_total : Total text_le.
Proof.
  intros [x|] [y|]; unfold text_le; cbn; auto.
  destruct (String.leb_total x y) as [-> | ->]; cbn; auto.
Qed.

#[export] Instance text_le_trans : Transitive text_le.
Proof.
  intros [x|] [y|] [z|]; unfold text_le; cbn; try done.
  rewrite !Is_true_true, !string_leb_spec. apply string_compare_trans.
Qed.

#[export] Instance text_le_antisymm : AntiSymm (=) text_le.
Proof.
  intros [x|] [y|]; unfold text_le; cbn; try done.
  rewrite !Is_true_true. intros H1 H2. f_equal. by apply String.leb_antisym.
Qed.

#[export] Instance ascending_total {R} (key : R → sql_text) : Total (ascending key).
Proof. intros a b. apply text_le_total. Qed.

#[export] Instance ascending_trans {R} (key : R → sql_text) : Transitive (ascending key).
Proof. intros a b c. apply text_le_trans. Qed.

#[export] Instance descending_total {R} (key : R → Z) : Total (descending key).
Proof. intros a b. unfold descending. lia. Qed.

#[export] Instance descending_trans {R} (key : R → Z) : Transitive (descending key).
Proof. intros a b c. unfold descending. lia. Qed.

(** ** Aggregates and grouping *)

Section aggregates.
Context {R : Type}.
Implicit Types (rows : list R) (col : R → Z).

Lemma SUM_app col rows1 rows2 :
  SUM col (rows1 ++ rows2) = SUM col rows1 + SUM col rows2.
Proof. unfold SUM. induction rows1 as [|r rows1 IH]; cbn; lia. Qed.

Lemma SUM_Permutation col rows1 rows2 :
  rows1 ≡ₚ rows2 → SUM col rows1 = SUM col rows2.
Proof. unfold SUM. induction 1; cbn; lia. Qed.

Lemma SUM_fmap {S} (f : S → R) col (l : list S) :
  SUM col (f <$> l) = SUM (col ∘ f) l.
Proof. unfold SUM. induction l as [|x l IH]; cbn; [done|]. by rewrite IH. Qed.

Lemma SUM_ext col1 col2 rows :
  (∀ r, r ∈ rows → col1 r = col2 r) → SUM col1 rows = SUM col2 rows.
Proof.
  unfold SUM. induction rows as [|r rows IH]; cbn; [done|]. intros H.
  rewrite H, IH; [done| |left]. intros r' Hr'. apply H. by right.
Qed.

Lemma SUM_plus col1 col2 rows :
  SUM (fun r => col1 r + col2 r) rows = SUM col1 rows + SUM col2 rows.
Proof. unfold SUM. induction rows as [|r rows IH]; cbn; lia. Qed.

Lemma SUM_zero rows : SUM (fun _ => 0) rows = 0.
Proof. unfold SUM. induction rows; cbn; lia. Qed.

Lemma COUNT_nonneg rows : 0 <= COUNT rows.
Proof. unfold COUNT. lia. Qed.
End aggregates.

Section grouping.
Context {R : Type} (key : R → sql_text).
Implicit Types (rows : list R) (k : sql_text) (ks : list sql_text).

(** Over a duplicate-free list of keys, the indicator of one key sums to
    one when the key is listed and to zero when it is not. *)
Lemma SUM_indicator k ks :
  NoDup ks →
  SUM (fun k' => if decide (k = k') then 1 else 0) ks
  = if decide (k ∈ ks) then 1 else 0.
Proof.
  induction 1 as [|k' ks Hk' Hks IH].
  - by rewrite decide_False by apply not_elem_of_nil.
  - change (SUM ?f (k' :: ks)) with (f k' + SUM f ks). rewrite IH. destruct (decide (k = k')) as [->|Hne].
    + rewrite (decide_False (P := k' ∈ ks)) by done.
      rewrite decide_True by left. lia.
    + destruct (decide (k ∈ ks)).
      * rewrite decide_True by by right. lia.
      * rewrite decide_False; [lia|]. by intros [?|?]%elem_of_cons.
Qed.

Lemma COUNT_filter_cons k r rows :
  COUNT (filter (fun r' => key r' = k) (r :: rows))
  = (if decide (key r = k) then 1 else 0) + COUNT (filter (fun r' => key r' = k) rows).
Proof.
  rewrite filter_cons. unfold COUNT. destruct (decide (key r = k)); cbn; lia.
Qed.

(** The sizes of the groups add up to the size of the table as soon as
    the keys are listed without repetition and none is missing. *)
Lemma SUM_group_sizes rows ks :
  NoDup ks → (∀ r, r ∈ rows → key r ∈ ks) →
  SUM (fun k => COUNT (filter (fun r => key r = k) rows)) ks = COUNT rows.
Proof.
  intros Hks. induction rows as [|r rows IH]; intros Hin.
  - cbn. apply SUM_zero.
  - rewrite (SUM_ext _ (fun k => (if decide (key r = k) then 1 else 0)
               + COUNT (filter (fun r' => key r' = k) rows)))
      by (intros; apply COUNT_filter_cons).
    rewrite SUM_plus, SUM_indicator, IH by (try done; intros; apply Hin; by right).
    rewrite decide_True by (apply Hin; left).
    unfold COUNT. cbn. lia.
Qed.

Lemma GROUP_BY_unfold rows :
  GROUP_BY key rows
  = (fun k => (k, filter (fun r => key r = k) rows)) <$> group_keys key rows.
Proof. done. Qed.

Lemma group_keys_Permutation rows : group_keys key rows ≡ₚ remove_dups (key <$> rows).
Proof. apply merge_sort_Permutation. Qed.

Lemma NoDup_group_keys rows : NoDup (group_keys key rows).
Proof. rewrite group_keys_Permutation. apply NoDup_remove_dups. Qed.

Lemma elem_of_group_keys k rows : k ∈ group_keys key rows ↔ k ∈ key <$> rows.
Proof. by rewrite group_keys_Permutation, elem_of_remove_dups. Qed.

Lemma GROUP_BY_keys rows : (GROUP_BY key rows).*1 = group_keys key rows.
Proof.
  rewrite GROUP_BY_unfold, <- list_fmap_compose.
  rewrite <- (list_fmap_id (group_keys key rows)) at 2. by apply list_fmap_ext.
Qed.

Lemma length_GROUP_BY rows :
  length (GROUP_BY key rows) = length (remove_dups (key <$> rows)).
Proof.
  rewrite GROUP_BY_unfold, length_fmap. by rewrite group_keys_Permutation.
Qed.

Lemma elem_of_GROUP_BY g rows :
  g ∈ GROUP_BY key rows
  ↔ g.1 ∈ key <$> rows ∧ g.2 = filter (fun r => key r = g.1) rows.
Proof.
  rewrite GROUP_BY_unfold, list_elem_of_fmap. split.
  - intros (k & -> & Hk). by apply elem_of_group_keys in Hk.
  - intros [Hk Hg]. exists g.1. split; [|by apply elem_of_group_keys].
    destruct g; cbn in *; by subst.
Qed.

Lemma SUM_GROUP_BY_COUNT rows :
  SUM (fun g => COUNT g.2) (GROUP_BY key rows) = COUNT rows.
Proof.
  rewrite GROUP_BY_unfold, SUM_fmap. apply SUM_group_sizes.
  - apply NoDup_group_keys.
  - intros r Hr. apply elem_of_group_keys. by apply list_elem_of_fmap_2.
Qed.

(** A key that labels no row has an empty group. *)
Lemma rows_with_absent k rows : k ∉ key <$> rows → rows_with key k rows = 0.
Proof.
  intros Hk. unfold rows_with.
  destruct (filter (fun r => key r = k) rows) as [|r l] eqn:E; [done|].
  assert (r ∈ filter (fun r => key r = k) rows) as Hr by (rewrite E; left).
  apply list_elem_of_filter in Hr as [<- Hr].
  destruct Hk. by apply list_elem_of_fmap_2.
Qed.
End grouping.

(** ** The report catalogue *)

Section reports.
Implicit Types db : database.

(** The rows of a keyed list that carry key [c]: the one built from [c]
    if [c] is listed, none otherwise. *)
Lemma SUM_filter_keyed {S} (build : sql_text → S) (pkey : S → sql_text)
    (col : S → Z) (c : sql_text) (ks : list sql_text) :
  (∀ k, pkey (build k) = k) → NoDup ks →
  SUM col (filter (fun p => pkey p = c) (build <$> ks))
  = if decide (c ∈ ks) then col (build c) else 0.
Proof.
  intros Hkey. induction 1 as [|k ks Hk Hks IH].
  - by rewrite decide_False by apply not_elem_of_nil.
  - rewrite fmap_cons, filter_cons, Hkey.
    destruct (decide (k = c)) as [->|Hne].
    + change (SUM col (?x :: ?l)) with (col x + SUM col l). rewrite IH.
      rewrite decide_False by done. rewrite decide_True by left. lia.
    + rewrite IH. destruct (decide (c ∈ ks)).
      * by rewrite decide_True by by right.
      * rewrite decide_False; [done|]. intros [?|?]%elem_of_cons; by subst.
Qed.

Lemma SUM_filter_all_zero {S} (P : S → Prop) `{∀ x, Decision (P x)}
    (col : S → Z) (l : list S) :
  (∀ p, p ∈ l → col p = 0) → SUM col (filter P l) = 0.
Proof.
  intros Hz. rewrite (SUM_ext _ (fun _ => 0)); [apply SUM_zero|].
  intros p [_ Hp]%list_elem_of_filter. by apply Hz.
Qed.

(** The per-city count of a table, read off the row that the inner query
    of [q1] builds for the table. *)
Lemma SUM_counts_of_table {T} (city : T → sql_text) (table : list T)
    (build : sql_text → Z → Q1.part) (col : Q1.part → Z) (c : sql_text) :
  (∀ k n, Q1.part_City (build k n) = k) → (∀ k n, col (build k n) = n) →
  SUM col (filter (fun p => Q1.part_City p = c)
             ((fun g => build g.1 (COUNT g.2)) <$> GROUP_BY city table))
  = rows_with city c table.
Proof.
  intros Hkey Hcol. rewrite GROUP_BY_unfold, <- list_fmap_compose.
  unfold compose. cbn [fst snd].
  rewrite (SUM_filter_keyed
             (fun k => build k (COUNT (filter (fun r => city r = k) table))))
    by (try done; apply NoDup_group_keys).
  destruct (decide (c ∈ group_keys city table)) as [Hc|Hc].
  - by rewrite Hcol.
  - symmetry. apply rows_with_absent. by rewrite <- elem_of_group_keys.
Qed.

Lemma part_cities {T} (city : T → sql_text) (table : list T)
    (build : sql_text → Z → Q1.part) :
  (∀ k n, Q1.part_City (build k n) = k) →
  Q1.part_City <$> ((fun g => build g.1 (COUNT g.2)) <$> GROUP_BY city table)
  = group_keys city table.
Proof.
  intros Hkey. rewrite <- list_fmap_compose, <- GROUP_BY_keys.
  apply list_fmap_ext. intros i g _. apply Hkey.
Qed.

Lemma remove_dups_Permutation (l1 l2 : list sql_text) :
  (∀ k, k ∈ l1 ↔ k ∈ l2) → remove_dups l1 ≡ₚ remove_dups l2.
Proof.
  intros Hl. apply NoDup_Permutation; [apply NoDup_remove_dups..|].
  intros k. by rewrite !elem_of_remove_dups.
Qed.
End reports.

(** C8: the food-type frequency report is ordered by count descending;
    its Food_Type column lists the distinct Food_Type values of the table
    (NULL being one of them), each once, so it has as many rows as there
    are distinct values; every count is the number of listings of that
    Food_Type; and the counts add up to the number of listings. *)
Theorem q7_food_type_frequency (db : database) :
  StronglySorted (descending Q7.Count_Listings) (q7 db) ∧
  Q7.Food_Type <$> q7 db ≡ₚ remove_dups (Food_Type <$> food_listings db) ∧
  Forall
    (fun row =>
       Q7.Count_Listings row
       = rows_with Food_Type (Q7.Food_Type row) (food_listings db))
    (q7 db) ∧
  length (q7 db) = length (remove_dups (Food_Type <$> food_listings db)) ∧
  SUM Q7.Count_Listings (q7 db) = COUNT (food_listings db).
Proof.
  assert (q7 db ≡ₚ (fun g => Q7.mk g.1 (COUNT g.2))
                     <$> GROUP_BY Food_Type (food_listings db)) as Hperm
    by apply merge_sort_Permutation.
  split; [apply StronglySorted_merge_sort; apply _|].
  split; [|split; [|split]].
  - rewrite Hperm, <- list_fmap_compose.
    change (Q7.Food_Type ∘ _) with (@fst sql_text (list FoodListing)).
    rewrite GROUP_BY_keys. apply group_keys_Permutation.
  - rewrite Hperm. apply Forall_fmap, Forall_forall.
    intros g [_ Hg]%elem_of_GROUP_BY. cbn. unfold rows_with. by rewrite Hg.
  - rewrite Hperm, length_fmap. apply length_GROUP_BY.
  - rewrite (SUM_Permutation _ _ _ Hperm), SUM_fmap.
    apply SUM_GROUP_BY_COUNT.
Qed.

(** C9: the city coverage report is ordered by city ascending (NULL
    first, then by bytes); its City column lists the cities that occur in
    [providers] or in [receivers], each once; and in every row Providers
    is the number of providers of that city and Receivers the number of
    receivers of that city, zero when the city has none on that side. *)
Theorem q1_city_coverage (db : database) :
  StronglySorted (ascending Q1.City) (q1 db) ∧
  Q1.City <$> q1 db
    ≡ₚ remove_dups ((Providers.City <$> providers db)
                     ++ (Receivers.City <$> receivers db)) ∧
  Forall
    (fun row =>
       Q1.Providers row = rows_with Providers.City (Q1.City row) (providers db) ∧
       Q1.Receivers row = rows_with Receivers.City (Q1.City row) (receivers db))
    (q1 db).
Proof.
  set (parts :=
         ((fun g => Q1.mk_part g.1 (COUNT g.2) 0)
            <$> GROUP_BY Providers.City (providers db))
         ++ ((fun g => Q1.mk_part g.1 0 (COUNT g.2))
               <$> GROUP_BY Receivers.City (receivers db))).
  assert (q1 db ≡ₚ (fun g => Q1.mk g.1 (SUM Q1.providers_count g.2)
                                  (SUM Q1.receivers_count g.2))
                     <$> GROUP_BY Q1.part_City parts) as Hperm
    by apply merge_sort_Permutation.
  split; [apply StronglySorted_merge_sort; apply _|]. split.
  - rewrite Hperm, <- list_fmap_compose.
    change (Q1.City ∘ _) with (@fst sql_text (list Q1.part)).
    rewrite GROUP_BY_keys, group_keys_Permutation.
    apply remove_dups_Permutation. intros k. unfold parts.
    rewrite fmap_app, !elem_of_app.
    rewrite (part_cities _ _ (fun k n => Q1.mk_part k n 0)) by done.
    rewrite (part_cities _ _ (fun k n => Q1.mk_part k 0 n)) by done.
    by rewrite !elem_of_group_keys.
  - rewrite Hperm. apply Forall_fmap, Forall_forall.
    intros g [_ Hg]%elem_of_GROUP_BY. cbn. rewrite Hg. unfold parts.
    rewrite filter_app, !SUM_app. split.
    + rewrite (SUM_counts_of_table Providers.City (providers db)
                 (fun k n => Q1.mk_part k n 0)) by done.
      rewrite SUM_filter_all_zero; [lia|].
      by intros p (g' & -> & _)%list_elem_of_fmap.
    + rewrite (SUM_counts_of_table Receivers.City (receivers db)
                 (fun k n => Q1.mk_part k 0 n)) by done.
      rewrite SUM_filter_all_zero; [lia|].
      by intros p (g' & -> & _)%list_elem_of_fmap.
Qed.

(** ** Rounding and the percentages of [q10] *)

Section rounding.
Local Open Scope Q_scope.

Lemma floor_half_near (y : Q) :
  Qabs (inject_Z (Qfloor (y * 100 + (1 # 2))) / 100 - y) <= 1 # 200.
Proof.
  pose proof (Qfloor_le (y * 100 + (1 # 2))) as Hlo.
  pose proof (Qlt_floor (y * 100 + (1 # 2))) as Hhi.
  rewrite inject_Z_plus in Hhi.
  set (f := inject_Z (Qfloor (y * 100 + (1 # 2)))) in *.
  apply Qabs_Qle_condition. change (inject_Z 1) with 1 in Hhi.
  unfold Qdiv. change (/ 100) with (1 # 100).
  clearbody f. split; lra.
Qed.

(** [ROUND(x, 2)] is a whole number of hundredths, at most half a
    hundredth away from [x]. *)
Lemma ROUND_2_hundredths (x : Q) : ∃ n : Z, ROUND x 2 == inject_Z n / 100.
Proof.
  unfold ROUND. change (inject_Z (10 ^ Z.of_nat 2)) with 100.
  destruct (Qle_bool 0 x).
  - by eexists.
  - exists (- Qfloor (- x * 100 + (1 # 2)))%Z.
    rewrite inject_Z_opp. unfold Qdiv. ring.
Qed.

Lemma ROUND_2_near (x : Q) : Qabs (ROUND x 2 - x) <= 1 # 200.
Proof.
  unfold ROUND. change (inject_Z (10 ^ Z.of_nat 2)) with 100.
  destruct (Qle_bool 0 x).
  - apply floor_half_near.
  - pose proof (floor_half_near (- x)) as H.
    rewrite <- Qabs_opp.
    assert (- (- (inject_Z (Qfloor (- x * 100 + (1 # 2))) / 100) - x)
            == inject_Z (Qfloor (- x * 100 + (1 # 2))) / 100 - - x) as E by ring.
    by rewrite E.
Qed.
End rounding.

Section percentages.
Local Open Scope Q_scope.
Context {R : Type}.
Implicit Types (rows : list R) (p x : R → Q).

Lemma Qsum_cons p r rows : Qsum p (r :: rows) = p r + Qsum p rows.
Proof. done. Qed.

(** Columns that differ by at most [e] row by row have sums that differ
    by at most [e] times the number of rows. *)
Lemma Qsum_near p x (e : Q) rows :
  Forall (fun r => Qabs (p r - x r) <= e) rows →
  Qabs (Qsum p rows - Qsum x rows) <= e * inject_Z (COUNT rows).
Proof.
  induction 1 as [|r rows Hr _ IH].
  - cbn. rewrite Qmult_0_r. by apply Qabs_Qle_condition.
  - rewrite !Qsum_cons.
    assert (p r + Qsum p rows - (x r + Qsum x rows)
            == (p r - x r) + (Qsum p rows - Qsum x rows)) as -> by ring.
    eapply Qle_trans; [apply Qabs_triangle|].
    unfold COUNT in *. rewrite length_cons, Nat2Z.inj_succ.
    unfold Z.succ. rewrite inject_Z_plus. change (inject_Z 1) with 1. lra.
Qed.

(** The exact shares [100 * c / total] of the rows sum to
    [100 * (sum of c) / total]. *)
Lemma Qsum_shares (c : R → Z) (total : Q) rows :
  Qsum (fun r => 100 * inject_Z (c r) / total) rows
  == 100 * inject_Z (SUM c rows) / total.
Proof.
  induction rows as [|r rows IH].
  - cbn. unfold Qdiv. ring.
  - rewrite Qsum_cons, IH. change (SUM c (r :: rows)) with (c r + SUM c rows)%Z.
    rewrite inject_Z_plus. unfold Qdiv. ring.
Qed.
End percentages.

(** C4: for a non-empty [claims] table, the Status column of the report
    lists the distinct Status values, each once; in every row Count_Status
    is the number of claims of that Status and Percentage is
    [100 * Count_Status / total] rounded to two decimals, that is a whole
    number of hundredths at most 0.005 away from the exact share; and the
    percentages add up to 100 up to 0.005 per row of the report. *)
Theorem q10_claim_status_distribution (db : database) :
  claims db ≠ [] →
  Q10.Status <$> q10 db ≡ₚ remove_dups (Claims.Status <$> claims db) ∧
  Forall
    (fun row =>
       let share :=
         (100 * inject_Z (Q10.Count_Status row) / inject_Z (COUNT (claims db)))%Q in
       Q10.Count_Status row
       = rows_with Claims.Status (Q10.Status row) (claims db) ∧
       Q10.Percentage row = ROUND share 2 ∧
       (∃ n : Z, Q10.Percentage row == inject_Z n / 100)%Q ∧
       (Qabs (Q10.Percentage row - share) <= 1 # 200)%Q)
    (q10 db) ∧
  (Qabs (Qsum Q10.Percentage (q10 db) - 100)
   <= (1 # 200) * inject_Z (COUNT (q10 db)))%Q.
Proof.
  intros Hne.
  assert (Forall
    (fun row =>
       let share :=
         (100 * inject_Z (Q10.Count_Status row) / inject_Z (COUNT (claims db)))%Q in
       Q10.Count_Status row
       = rows_with Claims.Status (Q10.Status row) (claims db) ∧
       Q10.Percentage row = ROUND share 2 ∧
       (∃ n : Z, Q10.Percentage row == inject_Z n / 100)%Q ∧
       (Qabs (Q10.Percentage row - share) <= 1 # 200)%Q)
    (q10 db)) as Hrows.
  { unfold q10. apply Forall_fmap, Forall_forall.
    intros g [_ Hg]%elem_of_GROUP_BY. cbn. split; [|split; [|split]].
    - unfold rows_with. by rewrite Hg.
    - done.
    - apply ROUND_2_hundredths.
    - apply ROUND_2_near. }
  split; [|split; [done|]].
  - unfold q10. rewrite <- list_fmap_compose.
    change (Q10.Status ∘ _) with (@fst sql_text (list Claims.row)).
    rewrite GROUP_BY_keys. apply group_keys_Permutation.
  - set (share := fun row : Q10.row =>
           (100 * inject_Z (Q10.Count_Status row) / inject_Z (COUNT (claims db)))%Q).
    assert (Qsum share (q10 db) == 100)%Q as <-.
    { unfold share. rewrite Qsum_shares.
      assert (SUM Q10.Count_Status (q10 db) = COUNT (claims db)) as ->.
      { unfold q10. rewrite SUM_fmap. apply SUM_GROUP_BY_COUNT. }
      field. intros H. apply Hne. apply length_zero_iff_nil.
      unfold COUNT, Qeq in H. cbn in H. lia. }
    apply Qsum_near. eapply Forall_impl; [exact Hrows|].
    by intros row (_ & _ & _ & H).
Qed.

Lemma q10_claim_status_distribution_witness :
  claims claimed ≠ [] ∧
  (Qabs (Qsum Q10.Percentage (q10 claimed) - 100)
   <= (1 # 200) * inject_Z (COUNT (q10 claimed)))%Q.
Proof.
  split; [discriminate|].
  apply (q10_claim_status_distribution claimed). discriminate.
Defined.

(** ** The reports on the sample database *)

Example q1_claimed :
  q1 claimed
  = [Q1.mk (Some "Agra") 1 1; Q1.mk (Some "Delhi") 0 1; Q1.mk (Some "Pune") 2 0].
Proof. reflexivity. Qed.

Example q7_claimed :
  q7 claimed = [Q7.mk (Some "Grain") 2; Q7.mk (Some "Non-Vegetarian") 1].
Proof. reflexivity. Qed.

Example q10_claimed :
  q10 claimed
  = [Q10.mk (Some "Cancelled") 1 14.29%Q;
     Q10.mk (Some "Completed") 2 28.57%Q;
     Q10.mk (Some "Pending") 4 57.14%Q].
Proof. reflexivity. Qed.

(** A tie goes away from zero: one claim in thirty-two is 3.125 percent. *)
Example ROUND_tie : ROUND (100 * 1 / 32) 2 = 3.13%Q.
Proof. reflexivity. Qed.

(** * Further properties of the gateway *)

(** X2: a write whose statement raises hands the exception of the store to
    the caller as it is, and nothing reaches the database file. *)
Theorem run_action_raise_keeps_store (query : write_statement) (w : world)
    (e : exception) :
  query (store w) = Raise e →
  fst (run_action query w) = Raise e ∧ store (snd (run_action query w)) = store w.
Proof. intros Hq. by rewrite (run_action_Raise _ _ _ Hq). Qed.

Lemma run_action_raise_keeps_store_witness :
  fst (run_action malformed_write seeded) = Raise OperationalError ∧
  store (snd (run_action malformed_write seeded)) = store seeded.
Proof.
  apply (run_action_raise_keeps_store malformed_write seeded OperationalError).
  reflexivity.
Defined.

(** X3: what a write has committed is what the next read is run on. *)
Theorem read_after_write {A} (action : write_statement) (query : read_statement A)
    (w : world) (db' : database) (rows : list A) :
  action (store w) = Return db' →
  query db' = Return rows →
  fst (run_query query (snd (run_action action w))) = Return rows.
Proof.
  intros Ha Hq. rewrite (run_action_Return _ _ _ Ha).
  by erewrite run_query_Return.
Qed.

Lemma read_after_write_witness :
  fst (run_query (fun db => Return (food_listings db))
         (snd (run_action (on_food_listings (INSERT_listing rice)) seeded)))
  = Return [bread; listing_row None rice].
Proof.
  apply (read_after_write (on_food_listings (INSERT_listing rice))
           (fun db => Return (food_listings db)) seeded
           (with_food_listings (store seeded)
              (INSERT_listing rice (food_listings (store seeded))))).
  - reflexivity.
  - reflexivity.
Defined.

Section handles.
Implicit Types (w : world) (conn : nat).

Lemma handles_fresh_next w : handles_fresh w → conns w !! next_handle w = None.
Proof.
  intros Hw. destruct (conns w !! next_handle w) eqn:E; [|done].
  assert (next_handle w < next_handle w)%nat by (apply Hw; by rewrite E). lia.
Qed.

End handles.

Section refused_commit.
Implicit Types (w : world) (query : write_statement).

(** When the store accepts the commit, [run_action_in] is [run_action]. *)
Lemma run_action_in_accepted query : run_action_in None query = run_action query.
Proof. done. Qed.

(** When the store refuses the commit, the exception leaves [run_action]
    at the line of [conn.commit()]: the transaction is not committed and
    the line [conn.close()] is not reached. *)
Lemma run_action_in_refused query w db' e :
  query (store w) = Return db' →
  run_action_in (Some e) query w
  = (Raise e,
     {| store := store w;
        conns := <[next_handle w := Some db']> (conns w);
        next_handle := S (next_handle w) |}).
Proof.
  intros Hq. unfold run_action_in, mbind, M_bind, get_connection, execute.
  cbn. rewrite lookup_insert_eq. cbn. rewrite Hq. cbn.
  rewrite lookup_insert_eq. by rewrite insert_insert_eq.
Qed.
End refused_commit.

(** X5: a [run_query] call whose statement returns, and a [run_action]
    call whose statement returns and whose commit the store accepts, leave
    the table of open connections exactly as they found it: the
    connections of other calls are not touched and none is added. *)
Theorem gateway_success_leaves_no_connection {A} (query : read_statement A)
    (action : write_statement) (w : world) (rows : list A) (db' : database) :
  handles_fresh w →
  query (store w) = Return rows →
  action (store w) = Return db' →
  conns (snd (run_query query w)) = conns w ∧
  conns (snd (run_action_in None action w)) = conns w.
Proof.
  intros Hw Hq Ha. rewrite run_action_in_accepted.
  rewrite (run_query_Return _ _ _ Hq), (run_action_Return _ _ _ Ha). cbn.
  split; apply delete_id; by apply handles_fresh_next.
Qed.

Lemma gateway_success_leaves_no_connection_witness :
  conns (snd (run_query (fun db => Return (food_listings db)) seeded)) = conns seeded ∧
  conns (snd (run_action_in None (on_food_listings (DELETE_listing (Some 1))) seeded))
  = conns seeded.
Proof.
  apply (gateway_success_leaves_no_connection
           (fun db => Return (food_listings db))
           (on_food_listings (DELETE_listing (Some 1)))
           seeded (food_listings (store seeded))
           (with_food_listings (store seeded)
              (DELETE_listing (Some 1) (food_listings (store seeded))))).
  - intros conn [x Hx]. cbn in Hx. by rewrite lookup_empty in Hx.
  - reflexivity.
  - reflexivity.
Defined.

(** X28: when the statement of a [run_action] call returns and the store
    refuses the commit, the call hands the exception of the store to its
    caller, the database file is as it was before the call, and the
    connection of the call stays open: one more than there were. *)
Theorem refused_commit_leaks_connection (action : write_statement) (w : world)
    (db' : database) (e : exception) :
  handles_fresh w →
  action (store w) = Return db' →
  fst (run_action_in (Some e) action w) = Raise e ∧
  store (snd (run_action_in (Some e) action w)) = store w ∧
  is_open (next_handle w) (snd (run_action_in (Some e) action w)) = true ∧
  size (conns (snd (run_action_in (Some e) action w))) = S (size (conns w)).
Proof.
  intros Hw Ha. rewrite (run_action_in_refused _ _ _ e Ha). cbn.
  split; [done|]. split; [done|]. split.
  - unfold is_open. cbn. apply bool_decide_eq_true. by rewrite lookup_insert_eq.
  - apply map_size_insert_None. by apply handles_fresh_next.
Qed.

Lemma refused_commit_leaks_connection_witness :
  fst (run_action_in (Some OperationalError)
         (on_food_listings (DELETE_listing (Some 1))) seeded)
  = Raise OperationalError ∧
  store (snd (run_action_in (Some OperationalError)
                (on_food_listings (DELETE_listing (Some 1))) seeded))
  = store seeded ∧
  is_open (next_handle seeded)
    (snd (run_action_in (Some OperationalError)
            (on_food_listings (DELETE_listing (Some 1))) seeded)) = true ∧
  size (conns (snd (run_action_in (Some OperationalError)
                      (on_food_listings (DELETE_listing (Some 1))) seeded)))
  = S (size (conns seeded)).
Proof.
  apply (refused_commit_leaks_connection
           (on_food_listings (DELETE_listing (Some 1))) seeded
           (with_food_listings (store seeded)
              (DELETE_listing (Some 1) (food_listings (store seeded))))
           OperationalError).
  - intros conn [x Hx]. cbn in Hx. by rewrite lookup_empty in Hx.
  - reflexivity.
Defined.

(** X6: a call whose statement raises leaves exactly one connection more
    open than there were: its own. *)
Theorem gateway_raise_leaks_one_connection {A} (query : read_statement A)
    (action : write_statement) (w : world) (e1 e2 : exception) :
  handles_fresh w →
  query (store w) = Raise e1 →
  action (store w) = Raise e2 →
  size (conns (snd (run_query query w))) = S (size (conns w)) ∧
  size (conns (snd (run_action action w))) = S (size (conns w)).
Proof.
  intros Hw Hq Ha.
  rewrite (run_query_Raise _ _ _ Hq), (run_action_Raise _ _ _ Ha). cbn.
  split; apply map_size_insert_None; by apply handles_fresh_next.
Qed.

Lemma gateway_raise_leaks_one_connection_witness :
  size (conns (snd (run_query malformed_read seeded))) = S (size (conns seeded)) ∧
  size (conns (snd (run_action malformed_write seeded))) = S (size (conns seeded)).
Proof.
  apply (gateway_raise_leaks_one_connection malformed_read malformed_write seeded
           OperationalError OperationalError).
  - intros conn [x Hx]. cbn in Hx. by rewrite lookup_empty in Hx.
  - reflexivity.
  - reflexivity.
Defined.

(** * Further properties of the listing statements *)

Section more_statements.
Implicit Types (t : list FoodListing) (id : sql_integer) (v : ListingValues).

Lemma sql_eq_other a id id' : sql_eq a id = true → id ≠ id' → sql_eq a id' = false.
Proof.
  intros [-> _]%sql_eq_true Hne.
  destruct (sql_eq id id') eqn:E; [|done]. by apply sql_eq_true in E as [? _].
Qed.

Lemma Food_ID_UPDATE v id t : Food_ID <$> UPDATE_listing v id t = Food_ID <$> t.
Proof.
  induction t as [|r t IH]; [done|]. cbn. f_equal; [|exact IH].
  by destruct (sql_eq (Food_ID r) id).
Qed.

Lemma SELECT_after_UPDATE v id t :
  SELECT_listing id (UPDATE_listing v id t)
  = (fun _ => listing_row id v) <$> SELECT_listing id t.
Proof.
  induction t as [|r t IH]; [done|]. cbn.
  destruct (sql_eq (Food_ID r) id) eqn:E; cbn; rewrite E; [|exact IH].
  cbn. f_equal; [|exact IH]. by apply sql_eq_true in E as [-> _].
Qed.

Lemma SELECT_other_after_UPDATE v id id' t :
  id ≠ id' → SELECT_listing id' (UPDATE_listing v id t) = SELECT_listing id' t.
Proof.
  intros Hne. induction t as [|r t IH]; [done|]. cbn.
  destruct (sql_eq (Food_ID r) id) eqn:E; cbn.
  - rewrite (sql_eq_other _ _ _ E Hne). exact IH.
  - destruct (sql_eq (Food_ID r) id'); [f_equal|]; exact IH.
Qed.

Lemma SELECT_other_after_DELETE id id' t :
  id ≠ id' → SELECT_listing id' (DELETE_listing id t) = SELECT_listing id' t.
Proof.
  intros Hne. induction t as [|r t IH]; [done|]. cbn.
  destruct (sql_eq (Food_ID r) id) eqn:E; cbn.
  - rewrite (sql_eq_other _ _ _ E Hne). exact IH.
  - destruct (sql_eq (Food_ID r) id'); [f_equal|]; exact IH.
Qed.

Lemma UPDATE_absent v id t : SELECT_listing id t = [] → UPDATE_listing v id t = t.
Proof.
  induction t as [|r t IH]; [done|]. cbn.
  destruct (sql_eq (Food_ID r) id); [discriminate|].
  intros H. f_equal. by apply IH.
Qed.

Lemma UPDATE_after_INSERT v' id v t :
  UPDATE_listing v' id (INSERT_listing v t) = INSERT_listing v (UPDATE_listing v' id t).
Proof. unfold UPDATE_listing, INSERT_listing. by rewrite List.map_app. Qed.

Lemma DELETE_after_INSERT id v t :
  DELETE_listing id (INSERT_listing v t) = INSERT_listing v (DELETE_listing id t).
Proof. unfold DELETE_listing, INSERT_listing. by rewrite List.filter_app. Qed.

Lemma DELETE_after_UPDATE v id t :
  DELETE_listing id (UPDATE_listing v id t) = DELETE_listing id t.
Proof.
  induction t as [|r t IH]; [done|]. cbn.
  destruct (sql_eq (Food_ID r) id) eqn:E; cbn; rewrite E; cbn; [|f_equal]; exact IH.
Qed.

Lemma DELETE_splits id t :
  length t = (length (DELETE_listing id t) + length (SELECT_listing id t))%nat.
Proof.
  unfold DELETE_listing, SELECT_listing.
  induction t as [|r t IH]; [done|]. cbn.
  destruct (sql_eq (Food_ID r) id); cbn; lia.
Qed.

Lemma elem_of_DELETE id r t :
  r ∈ DELETE_listing id t ↔ r ∈ t ∧ sql_eq (Food_ID r) id = false.
Proof.
  unfold DELETE_listing. rewrite !list_elem_of_In, List.filter_In.
  by rewrite negb_true_iff.
Qed.

Lemma store_after_statement f w :
  store (snd (run_action (on_food_listings f) w))
  = with_food_listings (store w) (f (food_listings (store w))).
Proof. by rewrite run_action_on_food_listings. Qed.

Lemma listings_after_statement f w :
  food_listings (store (snd (run_action (on_food_listings f) w)))
  = f (food_listings (store w)).
Proof. by rewrite store_after_statement. Qed.
End more_statements.

(** X7: an update never changes the Food_ID column: the table holds the
    same identifiers, in the same order and number, before and after. *)
Theorem Update_Listing_keeps_Food_IDs (w : world) (v : ListingValues) (id : sql_integer) :
  Food_ID <$> food_listings (store (snd (Update_Listing v id w)))
  = Food_ID <$> food_listings (store w).
Proof.
  unfold Update_Listing. rewrite listings_after_statement. apply Food_ID_UPDATE.
Qed.

(** X8: after an update of [id], read-for-edit of [id] returns as many
    rows as it returned before, and each of them is [id] with the eight
    values of the update. *)
Theorem read_for_edit_after_Update_Listing (w : world) (v : ListingValues)
    (id : sql_integer) :
  fst (read_for_edit id (snd (Update_Listing v id w)))
  = Return ((fun _ => listing_row id v)
              <$> SELECT_listing id (food_listings (store w))).
Proof.
  rewrite read_for_edit_result. unfold Update_Listing.
  rewrite listings_after_statement. f_equal. apply SELECT_after_UPDATE.
Qed.

(** X9: an update whose target no row holds returns normally and leaves
    the database file as it was. *)
Theorem Update_Listing_absent_is_noop (w : world) (v : ListingValues) (id : sql_integer) :
  SELECT_listing id (food_listings (store w)) = [] →
  fst (Update_Listing v id w) = Return tt ∧
  store (snd (Update_Listing v id w)) = store w.
Proof.
  intros H. unfold Update_Listing. rewrite store_after_statement.
  rewrite run_action_on_food_listings. split; [done|].
  rewrite (UPDATE_absent _ _ _ H). apply with_food_listings_same.
Qed.

Lemma Update_Listing_absent_is_noop_witness :
  fst (Update_Listing rice (Some 7) seeded) = Return tt ∧
  store (snd (Update_Listing rice (Some 7) seeded)) = store seeded.
Proof. apply (Update_Listing_absent_is_noop seeded rice (Some 7)). reflexivity. Defined.

(** X10: an update or a delete of one identifier does not change what
    read-for-edit returns for another. *)
Theorem read_for_edit_other_identifier (w : world) (v : ListingValues)
    (id id' : sql_integer) :
  id ≠ id' →
  fst (read_for_edit id' (snd (Update_Listing v id w))) = fst (read_for_edit id' w) ∧
  fst (read_for_edit id' (snd (Delete_Listing id w))) = fst (read_for_edit id' w).
Proof.
  intros Hne. rewrite !read_for_edit_result. unfold Update_Listing, Delete_Listing.
  rewrite !listings_after_statement. split; f_equal.
  - by apply SELECT_other_after_UPDATE.
  - by apply SELECT_other_after_DELETE.
Qed.

Lemma read_for_edit_other_identifier_witness :
  fst (read_for_edit (Some 1) (snd (Update_Listing dal (Some 2) stocked)))
  = fst (read_for_edit (Some 1) stocked) ∧
  fst (read_for_edit (Some 1) (snd (Delete_Listing (Some 2) stocked)))
  = fst (read_for_edit (Some 1) stocked).
Proof.
  apply (read_for_edit_other_identifier stocked dal (Some 2) (Some 1)). discriminate.
Defined.

(** X11: a listing added through the Add Listing page is out of reach of
    the other two pages: whatever identifier a later delete or update
    names, the added row is still the last row of the table, with the
    values it was added with. *)
Theorem added_listing_out_of_reach (w : world) (v v' : ListingValues) (id : sql_integer) :
  food_listings (store (snd (Delete_Listing id (snd (Add_Listing v w)))))
  = DELETE_listing id (food_listings (store w)) ++ [listing_row None v] ∧
  food_listings (store (snd (Update_Listing v' id (snd (Add_Listing v w)))))
  = UPDATE_listing v' id (food_listings (store w)) ++ [listing_row None v].
Proof.
  unfold Delete_Listing, Update_Listing, Add_Listing.
  rewrite !listings_after_statement. split.
  - apply DELETE_after_INSERT.
  - apply UPDATE_after_INSERT.
Qed.

(** X12: with NULL as the identifier (what an empty selection binds)
    read-for-edit returns no row, and delete and update return normally
    and leave the database file as it was. *)
Theorem NULL_identifier_selects_nothing (w : world) (v : ListingValues) :
  fst (read_for_edit None w) = Return [] ∧
  fst (Delete_Listing None w) = Return tt ∧
  store (snd (Delete_Listing None w)) = store w ∧
  fst (Update_Listing v None w) = Return tt ∧
  store (snd (Update_Listing v None w)) = store w.
Proof.
  assert (SELECT_listing None (food_listings (store w)) = []) as Hnone.
  { unfold SELECT_listing. induction (food_listings (store w)) as [|r t IH]; [done|].
    cbn. by rewrite sql_eq_NULL_r. }
  rewrite read_for_edit_result, Hnone.
  unfold Delete_Listing, Update_Listing.
  rewrite !store_after_statement, !run_action_on_food_listings.
  rewrite (DELETE_absent _ _ Hnone), (UPDATE_absent _ _ _ Hnone).
  by rewrite with_food_listings_same.
Qed.

(** X13: a delete removes the rows that read-for-edit returns for the
    identifier and no other: the rows left are those of the table whose
    Food_ID does not equal it, and the two row counts add up to the count
    before. *)
Theorem Delete_Listing_removes_what_is_read (w : world) (id : sql_integer) :
  let before := food_listings (store w) in
  let after := food_listings (store (snd (Delete_Listing id w))) in
  (∀ r, r ∈ after ↔ r ∈ before ∧ sql_eq (Food_ID r) id = false) ∧
  length before = (length after + length (SELECT_listing id before))%nat.
Proof.
  cbn zeta. unfold Delete_Listing. rewrite listings_after_statement. split.
  - intros r. apply elem_of_DELETE.
  - apply DELETE_splits.
Qed.

(** X14: an update followed by a delete of the same identifier leaves the
    database file as the delete alone does. *)
Theorem Delete_after_Update_Listing (w : world) (v : ListingValues) (id : sql_integer) :
  store (snd (Delete_Listing id (snd (Update_Listing v id w))))
  = store (snd (Delete_Listing id w)).
Proof.
  unfold Delete_Listing, Update_Listing. rewrite !store_after_statement.
  unfold with_food_listings. cbn. f_equal. apply DELETE_after_UPDATE.
Qed.

(** * Further properties of the reports *)

Section more_grouping.
Context {R : Type} (key : R → sql_text).
Implicit Types (rows : list R) (k : sql_text) (ks : list sql_text) (col : R → Z).

Lemma SUM_indicator_scaled (c : Z) k ks :
  NoDup ks →
  SUM (fun k' => if decide (k = k') then c else 0) ks
  = if decide (k ∈ ks) then c else 0.
Proof.
  induction 1 as [|k' ks Hk' Hks IH].
  - by rewrite decide_False by apply not_elem_of_nil.
  - change (SUM ?f (k' :: ks)) with (f k' + SUM f ks). rewrite IH.
    destruct (decide (k = k')) as [->|Hne].
    + rewrite (decide_False (P := k' ∈ ks)) by done.
      rewrite decide_True by left. lia.
    + destruct (decide (k ∈ ks)).
      * rewrite decide_True by by right. lia.
      * rewrite decide_False; [lia|]. by intros [?|?]%elem_of_cons.
Qed.

(** Summing a column group by group is summing it over the table. *)
Lemma SUM_by_group col rows ks :
  NoDup ks → (∀ r, r ∈ rows → key r ∈ ks) →
  SUM (fun k => SUM col (filter (fun r => key r = k) rows)) ks = SUM col rows.
Proof.
  intros Hks. induction rows as [|r rows IH]; intros Hin.
  - cbn. apply SUM_zero.
  - rewrite (SUM_ext _ (fun k => (if decide (key r = k) then col r else 0)
               + SUM col (filter (fun r' => key r' = k) rows))).
    + rewrite SUM_plus, SUM_indicator_scaled, IH
        by (try done; intros; apply Hin; by right).
      by rewrite decide_True by (apply Hin; left).
    + intros k _. rewrite filter_cons. by destruct (decide (key r = k)).
Qed.

Lemma rows_with_present k rows : k ∈ key <$> rows → 1 <= rows_with key k rows.
Proof.
  intros (r & -> & Hr)%list_elem_of_fmap. unfold rows_with, COUNT.
  assert (r ∈ filter (fun r' => key r' = key r) rows) as Hf
    by by apply list_elem_of_filter.
  destruct (filter (fun r' => key r' = key r) rows); [by apply elem_of_nil in Hf|].
  cbn. lia.
Qed.

Lemma rows_with_le k rows : 0 <= rows_with key k rows <= COUNT rows.
Proof.
  unfold rows_with, COUNT.
  pose proof (length_filter (fun r => key r = k) rows). lia.
Qed.

Lemma rows_with_Permutation k rows rows' :
  rows ≡ₚ rows' → rows_with key k rows = rows_with key k rows'.
Proof. intros H. unfold rows_with, COUNT. by rewrite H. Qed.

(** The sorted list of the distinct keys depends on the rows of the table
    only, not on the order they are stored in. *)
Lemma group_keys_Permutation_eq rows rows' :
  rows ≡ₚ rows' → group_keys key rows = group_keys key rows'.
Proof.
  intros H. apply (Sorted_unique text_le).
  - apply Sorted_merge_sort, _.
  - apply Sorted_merge_sort, _.
  - rewrite !group_keys_Permutation. apply remove_dups_Permutation.
    intros k. by rewrite H.
Qed.

Lemma group_keys_nil rows : group_keys key rows = [] ↔ rows = [].
Proof.
  split; [|by intros ->].
  intros H. destruct rows as [|r rows]; [done|].
  assert (key r ∈ group_keys key (r :: rows)) as Hr
    by (apply elem_of_group_keys; left).
  rewrite H in Hr. by apply elem_of_nil in Hr.
Qed.

(** The groups with their sizes, key by key. *)
Lemma GROUP_BY_COUNT {S} (build : sql_text → Z → S) rows :
  (fun g => build g.1 (COUNT g.2)) <$> GROUP_BY key rows
  = (fun k => build k (rows_with key k rows)) <$> group_keys key rows.
Proof. by rewrite GROUP_BY_unfold, <- list_fmap_compose. Qed.
End more_grouping.

Section more_reports.
Implicit Types db : database.

Lemma q1_unfold db :
  q1 db
  = ORDER_BY Q1.City
      ((fun g => Q1.mk g.1 (SUM Q1.providers_count g.2) (SUM Q1.receivers_count g.2))
         <$> GROUP_BY Q1.part_City (q1_parts db)).
Proof. done. Qed.

Lemma q1_parts_unfold db :
  q1_parts db
  = ((fun k => Q1.mk_part k (rows_with Providers.City k (providers db)) 0)
       <$> group_keys Providers.City (providers db))
    ++ ((fun k => Q1.mk_part k 0 (rows_with Receivers.City k (receivers db)))
          <$> group_keys Receivers.City (receivers db)).
Proof.
  unfold q1_parts.
  by rewrite (GROUP_BY_COUNT _ (fun k n => Q1.mk_part k n 0)),
             (GROUP_BY_COUNT _ (fun k n => Q1.mk_part k 0 n)).
Qed.

Lemma elem_of_q1_cities db k :
  k ∈ q1_cities db
  ↔ k ∈ Providers.City <$> providers db ∨ k ∈ Receivers.City <$> receivers db.
Proof.
  unfold q1_cities. rewrite elem_of_group_keys. unfold q1_parts.
  rewrite fmap_app, elem_of_app.
  rewrite (part_cities _ _ (fun k n => Q1.mk_part k n 0)) by done.
  rewrite (part_cities _ _ (fun k n => Q1.mk_part k 0 n)) by done.
  by rewrite !elem_of_group_keys.
Qed.

(** The report before its ORDER BY: one row per city, with the two counts
    of the city. *)
Lemma q1_rows db :
  (fun g => Q1.mk g.1 (SUM Q1.providers_count g.2) (SUM Q1.receivers_count g.2))
    <$> GROUP_BY Q1.part_City (q1_parts db)
  = (fun k => Q1.mk k (rows_with Providers.City k (providers db))
                      (rows_with Receivers.City k (receivers db)))
      <$> q1_cities db.
Proof.
  rewrite GROUP_BY_unfold, <- list_fmap_compose. apply list_fmap_ext.
  intros _ k _. unfold compose. cbn [fst snd]. unfold q1_parts.
  rewrite filter_app, !SUM_app. f_equal.
  - rewrite (SUM_counts_of_table Providers.City (providers db)
               (fun k n => Q1.mk_part k n 0)) by done.
    rewrite SUM_filter_all_zero; [lia|].
    by intros p (g' & -> & _)%list_elem_of_fmap.
  - rewrite (SUM_counts_of_table Receivers.City (receivers db)
               (fun k n => Q1.mk_part k 0 n)) by done.
    rewrite SUM_filter_all_zero; [lia|].
    by intros p (g' & -> & _)%list_elem_of_fmap.
Qed.

Lemma q1_Permutation db :
  q1 db ≡ₚ (fun k => Q1.mk k (rows_with Providers.City k (providers db))
                             (rows_with Receivers.City k (receivers db)))
             <$> q1_cities db.
Proof. rewrite q1_unfold, q1_rows. apply merge_sort_Permutation. Qed.

Lemma q7_rows db :
  (fun g => Q7.mk g.1 (COUNT g.2)) <$> GROUP_BY Food_Type (food_listings db)
  = (fun k => Q7.mk k (rows_with Food_Type k (food_listings db)))
      <$> group_keys Food_Type (food_listings db).
Proof. apply (GROUP_BY_COUNT Food_Type Q7.mk). Qed.

Lemma q7_Permutation db :
  q7 db ≡ₚ (fun k => Q7.mk k (rows_with Food_Type k (food_listings db)))
             <$> group_keys Food_Type (food_listings db).
Proof. rewrite <- q7_rows. apply merge_sort_Permutation. Qed.

Lemma q10_rows db :
  q10 db
  = (fun k =>
       Q10.mk k (rows_with Claims.Status k (claims db))
         (ROUND (100 * inject_Z (rows_with Claims.Status k (claims db))
                 / inject_Z (COUNT (claims db))) 2))
      <$> group_keys Claims.Status (claims db).
Proof. unfold q10. by rewrite GROUP_BY_unfold, <- list_fmap_compose. Qed.
End more_reports.

(** X15: the city coverage report counts every provider and every
    receiver once: its Providers column adds up to the number of rows of
    [providers], its Receivers column to that of [receivers]. *)
Theorem q1_totals (db : database) :
  SUM Q1.Providers (q1 db) = COUNT (providers db) ∧
  SUM Q1.Receivers (q1 db) = COUNT (receivers db).
Proof.
  rewrite !(SUM_Permutation _ _ _ (q1_Permutation db)), !SUM_fmap.
  split; apply SUM_group_sizes.
  - apply NoDup_group_keys.
  - intros r Hr. apply elem_of_q1_cities. left. by apply list_elem_of_fmap_2.
  - apply NoDup_group_keys.
  - intros r Hr. apply elem_of_q1_cities. right. by apply list_elem_of_fmap_2.
Qed.

(** X16: no row of the city coverage report is empty: both counts are
    non-negative and at least one of them is positive. *)
Theorem q1_rows_nonempty (db : database) :
  Forall
    (fun row =>
       0 <= Q1.Providers row ∧ 0 <= Q1.Receivers row ∧
       1 <= Q1.Providers row + Q1.Receivers row)
    (q1 db).
Proof.
  rewrite (q1_Permutation db). apply Forall_fmap, Forall_forall.
  intros k Hk. cbn.
  pose proof (rows_with_le Providers.City k (providers db)).
  pose proof (rows_with_le Receivers.City k (receivers db)).
  apply elem_of_q1_cities in Hk as [Hk|Hk];
    apply rows_with_present in Hk; lia.
Qed.

(** X17: the city coverage report depends on the rows of the two tables,
    not on the order they are stored in. *)
Theorem q1_Permutation_invariant (db db' : database) :
  providers db ≡ₚ providers db' →
  receivers db ≡ₚ receivers db' →
  q1 db = q1 db'.
Proof.
  intros HP HR. rewrite !q1_unfold. f_equal.
  assert (q1_parts db = q1_parts db') as ->; [|done].
  rewrite !q1_parts_unfold.
  rewrite (group_keys_Permutation_eq _ _ _ HP), (group_keys_Permutation_eq _ _ _ HR).
  f_equal; apply list_fmap_ext; intros _ k _; f_equal;
    by apply rows_with_Permutation.
Qed.

Lemma q1_Permutation_invariant_witness :
  q1 (create_database [provider "Pune"; provider "Agra"] [receiver "Agra"] [] [])
  = q1 (create_database [provider "Agra"; provider "Pune"] [receiver "Agra"] [] []).
Proof.
  apply (q1_Permutation_invariant
           (create_database [provider "Pune"; provider "Agra"] [receiver "Agra"] [] [])
           (create_database [provider "Agra"; provider "Pune"] [receiver "Agra"] [] [])).
  - apply perm_swap.
  - reflexivity.
Defined.

(** X18: the first row of the food-type frequency report is a most common
    Food_Type: no value, listed or not, labels more listings than the
    first row counts. *)
Theorem q7_first_row_is_most_common (db : database) (top : Q7.row) (rest : list Q7.row)
    (k : sql_text) :
  q7 db = top :: rest →
  rows_with Food_Type k (food_listings db) <= Q7.Count_Listings top.
Proof.
  intros Hq.
  assert (StronglySorted (descending Q7.Count_Listings) (q7 db)) as Hs
    by (apply StronglySorted_merge_sort; apply _).
  pose proof (q7_Permutation db) as Hp. rewrite Hq in Hs, Hp.
  apply StronglySorted_inv in Hs as [_ Hrest]. rewrite Forall_forall in Hrest.
  assert (∀ row, row ∈ top :: rest →
            Q7.Count_Listings row <= Q7.Count_Listings top) as Hle.
  { intros row [->|Hrow]%elem_of_cons; [lia|]. by apply Hrest. }
  destruct (decide (k ∈ Food_Type <$> food_listings db)) as [Hk|Hk].
  - apply (Hle (Q7.mk k (rows_with Food_Type k (food_listings db)))).
    rewrite Hp. apply list_elem_of_fmap. exists k. split; [done|].
    by apply elem_of_group_keys.
  - rewrite (rows_with_absent _ _ _ Hk).
    assert (top ∈ top :: rest) as Htop by left.
    rewrite Hp in Htop. apply list_elem_of_fmap in Htop as (k' & -> & _). cbn.
    apply rows_with_le.
Qed.

Lemma q7_first_row_is_most_common_witness :
  rows_with Food_Type (Some "Non-Vegetarian") (food_listings claimed)
  <= Q7.Count_Listings (Q7.mk (Some "Grain") 2).
Proof.
  apply (q7_first_row_is_most_common claimed (Q7.mk (Some "Grain") 2)
           [Q7.mk (Some "Non-Vegetarian") 1] (Some "Non-Vegetarian")).
  reflexivity.
Defined.

Section more_rounding.
Local Open Scope Q_scope.

(** Rounding to hundredths does not leave the range of a percentage. *)
Lemma ROUND_2_percentage (x : Q) : 0 <= x <= 100 → 0 <= ROUND x 2 <= 100.
Proof.
  intros [Hlo Hhi]. unfold ROUND. change (inject_Z (10 ^ Z.of_nat 2)) with 100.
  apply Qle_bool_iff in Hlo as Hb. rewrite Hb.
  assert (0 <= Qfloor (x * 100 + (1 # 2)) <= 10000)%Z as [Hf0 Hf1].
  { split.
    - change 0%Z with (Qfloor 0). apply Qfloor_resp_le. lra.
    - change 10000%Z with (Qfloor (10000 + (1 # 2))). apply Qfloor_resp_le. lra. }
  rewrite Zle_Qle in Hf0, Hf1.
  set (f := inject_Z (Qfloor (x * 100 + (1 # 2)))) in *. clearbody f.
  change (inject_Z 0) with 0 in Hf0. change (inject_Z 10000) with 10000 in Hf1.
  unfold Qdiv. change (/ 100) with (1 # 100). split; lra.
Qed.

Lemma share_percentage (c total : Z) :
  (1 <= c <= total)%Z → 0 <= 100 * inject_Z c / inject_Z total <= 100.
Proof.
  intros [Hc Ht].
  assert (0 < inject_Z total) as Hpos.
  { change 0 with (inject_Z 0). rewrite <- Zlt_Qlt. lia. }
  assert (0 <= inject_Z c) as Hc0.
  { change 0 with (inject_Z 0). rewrite <- Zle_Qle. lia. }
  assert (inject_Z c <= inject_Z total) as Hct by by rewrite <- Zle_Qle.
  split.
  - apply Qle_shift_div_l; [done|]. lra.
  - apply Qle_shift_div_r; [done|]. lra.
Qed.
End more_rounding.

(** X19: in every row of the claim-status report the count is at least one
    and at most the number of claims, and the percentage lies between 0
    and 100. *)
Theorem q10_counts_and_percentages_bounded (db : database) :
  Forall
    (fun row =>
       1 <= Q10.Count_Status row <= COUNT (claims db) ∧
       (0 <= Q10.Percentage row <= 100)%Q)
    (q10 db).
Proof.
  rewrite q10_rows. apply Forall_fmap, Forall_forall.
  intros k Hk%elem_of_group_keys. cbn.
  pose proof (rows_with_present _ _ _ Hk).
  pose proof (rows_with_le Claims.Status k (claims db)).
  split; [lia|]. apply ROUND_2_percentage, share_percentage. lia.
Qed.

Lemma fmap_nil_iff {A B} (f : A → B) (l : list A) : f <$> l = [] ↔ l = [].
Proof. split; [apply fmap_nil_inv|by intros ->]. Qed.

(** X20: a report is empty exactly when the tables it reads are empty; in
    particular the claim-status report of an empty [claims] table has no
    row, and its division by the number of claims is never evaluated. *)
Theorem reports_empty_iff (db : database) :
  (q1 db = [] ↔ providers db = [] ∧ receivers db = []) ∧
  (q7 db = [] ↔ food_listings db = []) ∧
  (q10 db = [] ↔ claims db = []).
Proof.
  split; [|split].
  - rewrite <- Permutation_nil_r, (q1_Permutation db), Permutation_nil_r.
    rewrite fmap_nil_iff. unfold q1_cities. rewrite group_keys_nil, q1_parts_unfold.
    rewrite app_nil, !fmap_nil_iff, !group_keys_nil. done.
  - rewrite <- Permutation_nil_r, (q7_Permutation db), Permutation_nil_r.
    by rewrite fmap_nil_iff, group_keys_nil.
  - by rewrite q10_rows, fmap_nil_iff, group_keys_nil.
Qed.

(** * Properties of the pages and of the start of the process *)

Section pages.
Implicit Types (w : world) (t : list FoodListing) (column : list sql_integer).

Lemma SELECT_NULL t : SELECT_listing None t = [].
Proof.
  unfold SELECT_listing. induction t as [|r t IH]; [done|].
  cbn. by rewrite sql_eq_NULL_r.
Qed.

Lemma ids_of_SELECT_ids_names t : (SELECT_ids_names t).*1 = Food_ID <$> t.
Proof. unfold SELECT_ids_names. by rewrite <- list_fmap_compose. Qed.

(** The parameter bound for the selection is the Food_ID of the row
    picked, NULL when that is NULL or when there is no row to pick. *)
Lemma bind_param_selectbox column choice :
  bind_param (selectbox (tolist column) choice) = default None (column !! choice).
Proof.
  unfold selectbox, tolist. case_decide as Hall.
  - rewrite list_lookup_fmap. destruct (column !! choice) as [c|] eqn:E; [|done].
    cbn. rewrite Forall_forall in Hall. symmetry. apply Hall.
    by eapply list_elem_of_lookup_2.
  - rewrite list_lookup_fmap. by destruct (column !! choice) as [[z|]|].
Qed.

Lemma truthy_selectbox_zero column choice :
  column !! choice = Some (Some 0) → truthy (selectbox (tolist column) choice) = false.
Proof.
  intros E. unfold selectbox, tolist. rewrite decide_False.
  - by rewrite list_lookup_fmap, E.
  - rewrite Forall_forall. intros Hall.
    by specialize (Hall (Some 0) (list_elem_of_lookup_2 _ _ _ E)).
Qed.

Lemma bind_run_query {A B} (query : read_statement A) (k : list A → M B) w rows :
  query (store w) = Return rows →
  (run_query query ≫= k) w
  = k rows {| store := store w;
              conns := delete (next_handle w) (conns w);
              next_handle := S (next_handle w) |}.
Proof. intros Hq. unfold mbind, M_bind. by rewrite (run_query_Return _ _ _ Hq). Qed.

(** The Update Listing page past its first query and its selection. *)
Lemma Update_Listing_page_unfold choice form pressed w :
  Update_Listing_page choice form pressed w
  = let selected_id :=
      selectbox (tolist (Food_ID <$> food_listings (store w))) choice in
    (if truthy selected_id then
       current_data ← read_for_edit (bind_param selected_id);
       match current_data with
       | [] => mret tt
       | row :: _ =>
           v ← lift (form row);
           if pressed then Update_Listing v (bind_param selected_id) else mret tt
       end
     else mret tt)
      {| store := store w;
         conns := delete (next_handle w) (conns w);
         next_handle := S (next_handle w) |}.
Proof.
  unfold Update_Listing_page.
  rewrite (bind_run_query _ _ w (SELECT_ids_names (food_listings (store w)))) by done.
  by rewrite ids_of_SELECT_ids_names.
Qed.

Lemma Delete_Listing_page_unfold choice pressed w :
  Delete_Listing_page choice pressed w
  = (if pressed
     then Delete_Listing
            (default None ((Food_ID <$> food_listings (store w)) !! choice))
     else mret tt)
      {| store := store w;
         conns := delete (next_handle w) (conns w);
         next_handle := S (next_handle w) |}.
Proof.
  unfold Delete_Listing_page.
  rewrite (bind_run_query _ _ w (SELECT_ids_names (food_listings (store w)))) by done.
  by rewrite ids_of_SELECT_ids_names, bind_param_selectbox.
Qed.
End pages.

(** X21: the Update Listing page does nothing for a listing whose Food_ID
    is 0: the test [if selected_id:] fails on it, so whatever the form
    holds and whether or not the button is pressed, the page returns
    normally and the database file is as it was. *)
Theorem Update_Listing_page_skips_zero (w : world) (choice : nat)
    (form : FoodListing → outcome ListingValues) (pressed : bool) :
  (Food_ID <$> food_listings (store w)) !! choice = Some (Some 0) →
  fst (Update_Listing_page choice form pressed w) = Return tt ∧
  store (snd (Update_Listing_page choice form pressed w)) = store w.
Proof.
  intros H0. rewrite Update_Listing_page_unfold. cbn zeta.
  by rewrite (truthy_selectbox_zero _ _ H0).
Qed.

Lemma Update_Listing_page_skips_zero_witness :
  let w := {| store := create_database [] [] [listing_row (Some 0) rice] [];
              conns := ∅;
              next_handle := 0 |} in
  fst (Update_Listing_page 0 (fun _ => Return rice) true w) = Return tt ∧
  store (snd (Update_Listing_page 0 (fun _ => Return rice) true w)) = store w.
Proof.
  apply (Update_Listing_page_skips_zero
           {| store := create_database [] [] [listing_row (Some 0) rice] [];
              conns := ∅;
              next_handle := 0 |} 0%nat (fun _ => Return rice) true).
  reflexivity.
Defined.

(** X22: pressing Delete Listing when the selection carries no identifier
    (the table is empty, or the Food_ID of the row picked is NULL) returns
    normally and deletes nothing. *)
Theorem Delete_Listing_page_without_identifier (w : world) (choice : nat) (pressed : bool) :
  (∀ z, (Food_ID <$> food_listings (store w)) !! choice ≠ Some (Some z)) →
  fst (Delete_Listing_page choice pressed w) = Return tt ∧
  store (snd (Delete_Listing_page choice pressed w)) = store w.
Proof.
  intros Hno. rewrite Delete_Listing_page_unfold.
  destruct pressed; [|done].
  assert (default None ((Food_ID <$> food_listings (store w)) !! choice) = None) as ->.
  { destruct ((Food_ID <$> food_listings (store w)) !! choice) as [[z|]|] eqn:E;
      [|done..]. by destruct (Hno z). }
  unfold Delete_Listing. rewrite run_action_on_food_listings. cbn.
  split; [done|].
  change (List.filter _ (food_listings (store w)))
    with (DELETE_listing None (food_listings (store w))).
  rewrite (DELETE_absent _ _ (SELECT_NULL _)). apply with_food_listings_same.
Qed.

Lemma Delete_Listing_page_without_identifier_witness :
  let w := snd (Add_Listing rice seeded) in
  fst (Delete_Listing_page 1 true w) = Return tt ∧
  store (snd (Delete_Listing_page 1 true w)) = store w.
Proof.
  apply (Delete_Listing_page_without_identifier (snd (Add_Listing rice seeded)) 1%nat true).
  intros z. discriminate.
Defined.

(** X23: a run of the Update Listing or of the Delete Listing page in
    which the button is not pressed writes nothing, whatever is selected
    and whatever the form holds. *)
Theorem pages_write_on_button_only (w : world) (choice : nat)
    (form : FoodListing → outcome ListingValues) :
  store (snd (Update_Listing_page choice form false w)) = store w ∧
  store (snd (Delete_Listing_page choice false w)) = store w.
Proof.
  split; [|by rewrite Delete_Listing_page_unfold].
  rewrite Update_Listing_page_unfold. cbn zeta.
  destruct (truthy _); [|done].
  unfold read_for_edit.
  erewrite bind_run_query by done.
  destruct (SELECT_listing _ _) as [|row rows]; [done|].
  unfold mbind, M_bind, lift. by destruct (form row).
Qed.

Section starts.
Implicit Types (csv : csv_files) (file : db_file)
  (later : list (option table_name * csv_files)).

(** Once the file is there, no start changes it, whatever the CSV files
    hold and whatever the store would take. *)
Lemma later_starts_keep_file file later :
  file ≠ Absent →
  fold_left (fun file' start => snd (startup (fst start) (snd start) file')) later file
  = file.
Proof.
  intros Hfile. induction later as [|start later IH]; [done|].
  cbn. by destruct file.
Qed.
End starts.

(** X24: a start that finds no database file and cannot read one of the
    four CSV files fails after the empty file has been created; every
    later start finds that file and does not seed, even when all four CSV
    files can be read by then: the database stays without tables. *)
Theorem failed_seeding_is_not_retried (refused : option table_name) (csv : csv_files)
    (later : list (option table_name * csv_files)) :
  providers_data csv = None ∨ receivers_data csv = None ∨
  food_listings_data csv = None ∨ claims_data csv = None →
  startup refused csv Absent = (Some ReadFailed, NoTables) ∧
  fold_left (fun file start => snd (startup (fst start) (snd start) file)) later
    (snd (startup refused csv Absent))
  = NoTables.
Proof.
  intros H.
  assert (startup refused csv Absent = (Some ReadFailed, NoTables)) as ->.
  { unfold startup, create_database_at.
    destruct csv as [[p|] [r|] [f|] [c|]]; cbn in *; try done.
    by destruct H as [?|[?|[?|?]]]. }
  split; [done|]. by apply later_starts_keep_file.
Qed.

Lemma failed_seeding_is_not_retried_witness :
  startup None (mkCsvFiles (Some []) None (Some [bread]) (Some [])) Absent
  = (Some ReadFailed, NoTables) ∧
  fold_left (fun file start => snd (startup (fst start) (snd start) file))
    [(None, mkCsvFiles (Some []) (Some []) (Some [bread]) (Some []))]
    (snd (startup None (mkCsvFiles (Some []) None (Some [bread]) (Some [])) Absent))
  = NoTables.
Proof.
  apply (failed_seeding_is_not_retried None
           (mkCsvFiles (Some []) None (Some [bread]) (Some []))
           [(None, mkCsvFiles (Some []) (Some []) (Some [bread]) (Some []))]).
  right. left. reflexivity.
Defined.

(** X25: a start that finds no database file, reads the four CSV files
    and has none of its four [to_sql] calls raise stores the rows of the
    files as the four tables, and no later start changes them, whatever
    the CSV files hold by then. *)
Theorem seeding_happens_once (providers_df : list Providers.row)
    (receivers_df : list Receivers.row) (food_df : list FoodListing)
    (claims_df : list Claims.row) (later : list (option table_name * csv_files)) :
  let csv := mkCsvFiles (Some providers_df) (Some receivers_df)
               (Some food_df) (Some claims_df) in
  fst (startup None csv Absent) = Some Seeded ∧
  fold_left (fun file start => snd (startup (fst start) (snd start) file)) later
    (snd (startup None csv Absent))
  = Tables (create_database providers_df receivers_df food_df claims_df).
Proof. cbn zeta. split; [done|]. by apply later_starts_keep_file. Qed.


Section pages_and_reports.
Implicit Types (w : world) (v : ListingValues) (k : sql_text).

Lemma rows_with_INSERT v k t :
  rows_with Food_Type k (INSERT_listing v t)
  = rows_with Food_Type k t + (if decide (Some (v_Food_Type v) = k) then 1 else 0).
Proof.
  unfold rows_with, COUNT, INSERT_listing.
  rewrite filter_app, length_app, filter_cons. cbn.
  destruct (decide (Some (v_Food_Type v) = k)); cbn; lia.
Qed.
End pages_and_reports.

(** X26: a listing added through the Add Listing page shows in the
    food-type frequency report: the report then has a row for the
    Food_Type of the listing, counting one more than the table held of
    that Food_Type before. *)
Theorem Add_Listing_shows_in_q7 (w : world) (v : ListingValues) :
  Q7.mk (Some (v_Food_Type v))
    (rows_with Food_Type (Some (v_Food_Type v)) (food_listings (store w)) + 1)
  ∈ q7 (store (snd (Add_Listing v w))).
Proof.
  rewrite (q7_Permutation _).
  destruct (Add_Listing_store v w) as [_ ->].
  apply list_elem_of_fmap. exists (Some (v_Food_Type v)). split.
  - f_equal. change (?t ++ [listing_row None v]) with (INSERT_listing v t).
    by rewrite rows_with_INSERT, decide_True.
  - apply elem_of_group_keys. rewrite fmap_app, elem_of_app. right. by left.
Qed.

(** X27: the buttons of the three listing pages change [food_listings]
    only: the city coverage report and the claim-status report read the
    same before and after. *)
Theorem listing_pages_keep_other_reports (w : world) (v : ListingValues)
    (id : sql_integer) :
  let w1 := snd (Add_Listing v w) in
  let w2 := snd (Update_Listing v id w) in
  let w3 := snd (Delete_Listing id w) in
  (q1 (store w1) = q1 (store w) ∧ q10 (store w1) = q10 (store w)) ∧
  (q1 (store w2) = q1 (store w) ∧ q10 (store w2) = q10 (store w)) ∧
  (q1 (store w3) = q1 (store w) ∧ q10 (store w3) = q10 (store w)).
Proof.
  cbn zeta. unfold Add_Listing, Update_Listing, Delete_Listing.
  by rewrite !store_after_statement.
Qed.
